(** * Centurio: theme settings normaliser, popup updates and page inverter

    A shallow embedding of the three TypeScript units of the extension:

    - [Theme]    : [entrypoints/shared/theme.ts], the settings normaliser;
    - [Popup]    : the settings updates of [entrypoints/popup/App.tsx];
    - [Content]  : the brightness sampling of the content script
                   ([parseColor], [relativeLuminance], [computePageIsDark]);
    - [Dom]      : the part of the document the content script reads and
                   edits (root attributes, elements looked up by id);
    - [Resolver] : the resolution pass of the content script
                   ([applyThemeFromSettings], [applyTheme], [clearTheme])
                   and its event handlers.

    The modules ending in [Facts] and in [Properties] hold the theorems.
    [getHostname] and [loadActiveHost] of the popup rest on the browser's
    URL parser and tab query and are not part of the embedding.

    Conventions of the embedding.

    - A value of TypeScript type [unknown] is a [JsValue]: the JSON-like
      values a storage area can hold, plus [undefined].  Objects are finite
      maps from property names to values, their own properties.  The
      property names every object inherits from [Object.prototype] are
      listed in [Js.objectPrototypeNames]; the places where the code
      reaches them through an object of overrides, the assignment in the
      loop of [normalizeSettings] and the look-up
      [settings.siteOverrides[host]] of the popup and of the content
      script, are modelled with them.
    - The union types ['light' | 'dark' | 'system'] and ['light' | 'dark']
      are the enumerations [ThemeMode] and [ThemeScheme].
    - A JavaScript [number] is the exact value the double stands for: a
      rational when it comes out of a decimal literal, with [NaN] apart;
      the luminance, which needs [Math.pow], is computed over the reals.
      The rounding of a literal that no double holds exactly (an integer
      beyond [2^53]) and the overflow to [Infinity] are not modelled; what
      is proved of [Number] for all inputs is stated within those bounds.
    - Strings are sequences of code units below 256. *)

From Stdlib Require Import ZArith QArith Reals Qreals Lra Lia Ascii String.
From Stdlib Require Import DecimalString DecimalNat.
From stdpp Require Import base option list strings gmap fin_maps pretty.

Local Open Scope string_scope.

(** ** JavaScript values *)

Module Js.

(** A double, idealised: [NaN] or an exact rational. *)
Inductive number :=
| NaN
| Num (q : Q).

#[warnings="-register-all"]
Inductive JsValue :=
| JUndefined
| JNull
| JBool (b : bool)
| JNumber (n : number)
| JString (s : string)
| JArray (items : list JsValue)
| JObject (props : gmap string JsValue).

(** [typeof value] *)
Definition typeof (value : JsValue) : string :=
  match value with
  | JUndefined => "undefined"
  | JNull => "object"
  | JBool _ => "boolean"
  | JNumber _ => "number"
  | JString _ => "string"
  | JArray _ => "object"
  | JObject _ => "object"
  end.

(** [value === null] *)
Definition isNull (value : JsValue) : bool :=
  match value with
  | JNull => true
  | _ => false
  end.

(** [value === s] for a string literal [s] *)
Definition strictEqString (value : JsValue) (s : string) : bool :=
  match value with
  | JString t => String.eqb t s
  | _ => false
  end.

Definition isDigit (c : ascii) : bool :=
  (("0" <=? c) && (c <=? "9"))%char.

Definition digitValue (c : ascii) : Z :=
  (Z.of_N (N_of_ascii c) - 48)%Z.

(** The value of a run of decimal digits, most significant first. *)
Definition decimalValue (digits : list ascii) : Z :=
  fold_left (fun acc c => (10 * acc + digitValue c)%Z) digits 0%Z.

(** A property name is an array index when it is the canonical decimal
    form of a natural number. *)
Definition arrayIndex (key : string) : option nat :=
  match list_ascii_of_string key with
  | [] => None
  | c :: rest =>
      if forallb isDigit (c :: rest) && (negb (Ascii.eqb c "0") || (length rest =? 0)%nat)
      then Some (Z.to_nat (decimalValue (c :: rest)))
      else None
  end.

(** [Object.entries(value)] for an object or an array, as the finite map of
    the own enumerable properties.  The order in which [Object.entries]
    lists them is not recorded: the loops that consume it build a map whose
    content does not depend on that order. *)
Definition ownEntries (value : JsValue) : gmap string JsValue :=
  match value with
  | JObject props => props
  | JArray items => list_to_map (imap (fun i item => (pretty i, item)) items)
  | _ => ∅
  end.

(** [value[key]] on an object or an array, for a [key] that is not one of
    [objectPrototypeNames] (the code reads [defaultMode] and
    [siteOverrides] this way); [undefined] when the property is missing.
    It is only applied to values that passed [isRecord]. *)
Definition getProp (value : JsValue) (key : string) : JsValue :=
  match value with
  | JObject props => default JUndefined (props !! key)
  | JArray items =>
      match arrayIndex key with
      | Some i => default JUndefined (items !! i)
      | None =>
          if String.eqb key "length"
          then JNumber (Num (inject_Z (Z.of_nat (length items))))
          else JUndefined
      end
  | _ => JUndefined
  end.

(** The constructor view of "is an object" (plain objects and arrays). *)
Definition isObject (value : JsValue) : bool :=
  match value with
  | JObject _ | JArray _ => true
  | _ => false
  end.

(** The property names of [Object.prototype], which an object literal
    inherits.  All of them are methods but [__proto__], an accessor whose
    getter answers the prototype and whose setter ignores whatever is not
    an object or [null]. *)
Definition objectPrototypeNames : list string :=
  [ "constructor"; "hasOwnProperty"; "isPrototypeOf"; "propertyIsEnumerable";
    "toLocaleString"; "toString"; "valueOf";
    "__defineGetter__"; "__defineSetter__"; "__lookupGetter__";
    "__lookupSetter__"; "__proto__" ].

(** [key in Object.prototype] *)
Definition inheritedName (key : string) : bool :=
  existsb (String.eqb key) objectPrototypeNames.

(** [String(Object.prototype[key])] for an inherited name: the text of the
    prototype object itself under [__proto__], and of a built-in function
    under the other names ([constructor] is the function [Object]).  The
    layout of a built-in function's text is the one V8 and SpiderMonkey
    print. *)
Definition inheritedText (key : string) : string :=
  if String.eqb key "__proto__" then "[object Object]"
  else
    let name := if String.eqb key "constructor" then "Object" else key in
    "function " +:+ name +:+ "() { [native code] }".

End Js.

(** ** entrypoints/shared/theme.ts *)

Module Theme.
Import Js.

Inductive ThemeMode := Light | Dark | System.

Record ThemeSettings := mkThemeSettings {
  defaultMode : ThemeMode;
  siteOverrides : gmap string ThemeMode
}.

Definition STORAGE_KEY : string := "centurio:theme-settings".

(** What [settings.siteOverrides[hostname]] evaluates to, in the popup and
    in the content script: the own entry, else the member of
    [Object.prototype] of that name, else [undefined]. *)
Inductive OverrideRead :=
| ReadOwn (mode : ThemeMode)
| ReadInherited (name : string)
| ReadUndefined.

Definition readOverride (overrides : gmap string ThemeMode) (hostname : string) :
    OverrideRead :=
  match overrides !! hostname with
  | Some mode => ReadOwn mode
  | None => if inheritedName hostname then ReadInherited hostname else ReadUndefined
  end.

(** Truthiness of what was read: a mode is a non-empty string, an inherited
    member an object or a function. *)
Definition truthyRead (read : OverrideRead) : bool :=
  match read with
  | ReadOwn _ | ReadInherited _ => true
  | ReadUndefined => false
  end.

(** The string a mode is at run time. *)
Definition modeToJs (mode : ThemeMode) : JsValue :=
  match mode with
  | Light => JString "light"
  | Dark => JString "dark"
  | System => JString "system"
  end.

(** The object a settings value is at run time. *)
Definition settingsToJs (settings : ThemeSettings) : JsValue :=
  JObject {[ "defaultMode" := modeToJs (defaultMode settings);
             "siteOverrides" := JObject (modeToJs <$> siteOverrides settings) ]}.

Definition defaultSettings : JsValue :=
  JObject {[ "defaultMode" := JString "system";
             "siteOverrides" := JObject ∅ ]}.

Definition isRecord (value : JsValue) : bool :=
  String.eqb (typeof value) "object" && negb (isNull value).

Definition isThemeMode (value : JsValue) : bool :=
  strictEqString value "light" || strictEqString value "dark"
  || strictEqString value "system".

(** The body of the [for ... of Object.entries(...)] loop.  The assignment
    [siteOverrides[hostname] = mode] is made on an object literal and adds
    an own property, except under the name [__proto__]: there it runs the
    setter inherited from [Object.prototype], which ignores a string and
    leaves the object as it was.  (Under the other inherited names the
    prototype holds writable data properties, which an assignment
    shadows.) *)
Definition copyValidEntry (hostname : string) (mode : JsValue)
    (siteOverrides : gmap string JsValue) : gmap string JsValue :=
  if isThemeMode mode
  then if String.eqb hostname "__proto__" then siteOverrides
       else <[hostname := mode]> siteOverrides
  else siteOverrides.

Definition normalizeSettings (value : JsValue) : JsValue :=
  if negb (isRecord value) then defaultSettings
  else
    let defaultMode :=
      if isThemeMode (getProp value "defaultMode")
      then getProp value "defaultMode"
      else getProp defaultSettings "defaultMode" in
    let siteOverrides :=
      if isRecord (getProp value "siteOverrides")
      then map_fold copyValidEntry ∅ (ownEntries (getProp value "siteOverrides"))
      else ∅ in
    JObject {[ "defaultMode" := defaultMode;
               "siteOverrides" := JObject siteOverrides ]}.

(** The narrowing that the type guard [isThemeMode] licenses. *)
Definition asThemeMode (value : JsValue) : option ThemeMode :=
  if strictEqString value "light" then Some Light
  else if strictEqString value "dark" then Some Dark
  else if strictEqString value "system" then Some System
  else None.

(** Reading a run-time value at type [ThemeSettings]; [None] when the value
    does not inhabit the type. *)
Definition settingsOfJs (value : JsValue) : option ThemeSettings :=
  match value with
  | JObject props =>
      match props !! "defaultMode" ≫= asThemeMode, props !! "siteOverrides" with
      | Some mode, Some (JObject overrides) =>
          if bool_decide (map_Forall (fun _ v => isThemeMode v = true) overrides)
          then Some (mkThemeSettings mode (omap asThemeMode overrides))
          else None
      | _, _ => None
      end
  | _ => None
  end.

(** The [defaultMode] of the result: the field of the input when it is a
    mode, [system] otherwise. *)
Definition repairedMode (props : gmap string JsValue) : JsValue :=
  match props !! "defaultMode" with
  | Some v => if isThemeMode v then v else JString "system"
  | None => JString "system"
  end.

(** The entries of a map whose value is a mode. *)
Definition validEntries (entries : gmap string JsValue) : gmap string JsValue :=
  filter (fun entry => isThemeMode entry.2 = true) entries.

(** The normaliser as the specification words it: defaults unless the input
    is a plain key-value object; the [defaultMode] field kept when it is a
    mode; when the [siteOverrides] field is a plain key-value object, its
    entries whose value is a mode, under any key; no entry when the field
    is absent or anything else. *)
Definition normalizeSettingsSpec (value : JsValue) : JsValue :=
  match value with
  | JObject props =>
      let overrides :=
        match props !! "siteOverrides" with
        | Some (JObject entries) => validEntries entries
        | _ => ∅
        end in
      JObject {[ "defaultMode" := repairedMode props;
                 "siteOverrides" := JObject overrides ]}
  | _ => defaultSettings
  end.

(** The entries the code reads under [siteOverrides]: [isRecord] lets every
    non-null object through, an array with its index-named entries. *)
Definition readOverrides (props : gmap string JsValue) : gmap string JsValue :=
  match props !! "siteOverrides" with
  | Some field => if isObject field then validEntries (ownEntries field) else ∅
  | None => ∅
  end.

(** [normalizeSettings] by cases on its input: the form its proofs use. *)
Definition normalizeSettingsCases (value : JsValue) : JsValue :=
  match value with
  | JObject props =>
      JObject {[ "defaultMode" := repairedMode props;
                 "siteOverrides" := JObject (delete "__proto__" (readOverrides props)) ]}
  | _ => defaultSettings
  end.

End Theme.

(** ** entrypoints/popup/App.tsx: the settings updates of the popup *)

Module Popup.
Import Js Theme.

(** The React state of the popup. *)
Record PopupState := mkPopupState {
  settings : ThemeSettings;
  activeHost : option string;
  isReady : bool
}.

(** Truthiness of a [string | null]: [null] and the empty string are falsy. *)
Definition truthyHost (host : option string) : bool :=
  match host with
  | Some h => negb (String.eqb h "")
  | None => false
  end.

(** [activeHost ? settings.siteOverrides[activeHost] : undefined] *)
Definition siteMode (st : PopupState) : OverrideRead :=
  match activeHost st with
  | Some h =>
      if truthyHost (Some h) then readOverride (siteOverrides (settings st)) h
      else ReadUndefined
  | None => ReadUndefined
  end.

(** [setSettings(next); await browser.storage.local.set({[STORAGE_KEY]: next})],
    where [storage] is [browser.storage.local], the store shared with the
    content script. *)
Definition updateSettings (next : ThemeSettings)
    (st : PopupState) (storage : gmap string JsValue) :
    PopupState * gmap string JsValue :=
  (mkPopupState next (activeHost st) (isReady st),
   <[STORAGE_KEY := settingsToJs next]> storage).

Definition setMode (mode : ThemeMode)
    (st : PopupState) (storage : gmap string JsValue) :
    PopupState * gmap string JsValue :=
  match activeHost st with
  | Some host =>
      if negb (truthyHost (Some host))
      then updateSettings
             (mkThemeSettings mode (siteOverrides (settings st))) st storage
      else
        let nextOverrides := <[host := mode]> (siteOverrides (settings st)) in
        updateSettings (mkThemeSettings mode nextOverrides) st storage
  | None =>
      updateSettings
        (mkThemeSettings mode (siteOverrides (settings st))) st storage
  end.

(** With [enabled] the value assigned is [siteMode ?? settings.defaultMode].
    When [siteMode] is an inherited member, the host has no own entry and
    the assignment stores under the host's name the value that name has by
    inheritance already (under [__proto__] it stores nothing: the inherited
    setter is handed the prototype the object has).  Every later read of
    the name yields that same value, as [readOverride] does where there is
    no entry; the map of overrides, which holds modes, is left as it is.
    What the store makes of a member passed to it this way is the
    browser's; the readers of the store keep valid modes only. *)
Definition setSiteOverride (enabled : bool)
    (st : PopupState) (storage : gmap string JsValue) :
    PopupState * gmap string JsValue :=
  match activeHost st with
  | Some host =>
      if negb (truthyHost (Some host)) then (st, storage)
      else
        let nextOverrides :=
          if enabled
          then
            match siteMode st with
            | ReadOwn mode => <[host := mode]> (siteOverrides (settings st))
            | ReadUndefined =>
                <[host := defaultMode (settings st)]> (siteOverrides (settings st))
            | ReadInherited _ => siteOverrides (settings st)
            end
          else delete host (siteOverrides (settings st)) in
        updateSettings
          (mkThemeSettings (defaultMode (settings st)) nextOverrides) st storage
  | None => (st, storage)
  end.

Definition MODE_LABELS (mode : ThemeMode) : string :=
  match mode with
  | Light => "Light"
  | Dark => "Dark"
  | System => "System"
  end.

(** [Boolean(activeHost && siteMode)] *)
Definition isSiteEnabled (st : PopupState) : bool :=
  truthyHost (activeHost st) && truthyRead (siteMode st).

(** The text of the pill in the header:
    [isSiteEnabled && siteMode ? MODE_LABELS[siteMode] : 'Off'].
    [MODE_LABELS] has no entry for an inherited member: the label is
    [undefined] then, and the pill is rendered empty. *)
Definition pillLabel (st : PopupState) : string :=
  if isSiteEnabled st
  then match siteMode st with
       | ReadOwn mode => MODE_LABELS mode
       | ReadInherited _ => ""
       | ReadUndefined => "Off"
       end
  else "Off".

(** [aria-pressed] of the segment for [mode]: [siteMode === mode] *)
Definition segmentPressed (st : PopupState) (mode : ThemeMode) : bool :=
  match siteMode st, mode with
  | ReadOwn Light, Light | ReadOwn Dark, Dark | ReadOwn System, System => true
  | _, _ => false
  end.

(** The footer: [Preferred mode: {MODE_LABELS[settings.defaultMode]}] *)
Definition footerText (st : PopupState) : string :=
  "Preferred mode: " +:+ MODE_LABELS (defaultMode (settings st)).

(** [loadSettings], after the stored value has arrived; [isMounted] is the
    flag the effect clears on unmount. *)
Definition loadSettings (isMounted : bool) (storage : gmap string JsValue)
    (st : PopupState) : PopupState :=
  let stored := default JUndefined (storage !! STORAGE_KEY) in
  if negb isMounted then st
  else
    match settingsOfJs (normalizeSettings stored) with
    | Some loaded => mkPopupState loaded (activeHost st) true
    | None => st
    end.


End Popup.

(** ** The content script: brightness sampling *)

Module Content.
Import Js Theme.

Inductive ThemeScheme := SchemeLight | SchemeDark.

Definition schemeToString (scheme : ThemeScheme) : string :=
  match scheme with
  | SchemeLight => "light"
  | SchemeDark => "dark"
  end.

Definition STYLE_ID : string := "centurio-theme-style".
Definition INVERT_ATTR : string := "data-centurio-invert".
Definition SCHEME_ATTR : string := "data-centurio-scheme".

(** [type Rgb = { r; g; b; a }].  The three channels are only ever built from
    the literal 255 or from [Number] of a [\d+] group, which is never [NaN];
    the alpha comes from a [[0-9.]+] group, whose [Number] may be [NaN]. *)
Record Rgb := mkRgb {
  r : Q;
  g : Q;
  b : Q;
  a : number
}.

(** [x > y] on numbers; any comparison with [NaN] is false. *)
Definition numberGt (x : number) (y : Q) : bool :=
  match x with
  | NaN => false
  | Num q => negb (Qle_bool q y)
  end.

(** The code units matched by [\s] among those below 256: tab, line feed,
    vertical tab, form feed, carriage return, space and no-break space. *)
Definition isWhitespace (c : ascii) : bool :=
  let n := N_of_ascii c in
  ((9 <=? n) && (n <=? 13) || (n =? 32) || (n =? 160))%N.

(** [value.replace(/\s+/g, '')] *)
Definition stripWhitespace (value : list ascii) : list ascii :=
  List.filter (fun c => negb (isWhitespace c)) value.

(** A pattern letter under the [i] flag. *)
Definition eqIgnoreCase (lower upper c : ascii) : bool :=
  Ascii.eqb c lower || Ascii.eqb c upper.

(** The longest prefix of characters satisfying [p], and the rest. *)
Fixpoint span (p : ascii -> bool) (s : list ascii) : list ascii * list ascii :=
  match s with
  | [] => ([], [])
  | c :: rest =>
      if p c then let '(taken, remaining) := span p rest in (c :: taken, remaining)
      else ([], s)
  end.

(** [rgba?\(] under the [i] flag: the input left after the prefix. *)
Definition matchPrefix (s : list ascii) : option (list ascii) :=
  match s with
  | c1 :: c2 :: c3 :: rest =>
      if eqIgnoreCase "r" "R" c1 && eqIgnoreCase "g" "G" c2
         && eqIgnoreCase "b" "B" c3
      then
        match rest with
        | c4 :: rest' =>
            if Ascii.eqb c4 "(" then Some rest'
            else if eqIgnoreCase "a" "A" c4
            then match rest' with
                 | c5 :: rest'' => if Ascii.eqb c5 "(" then Some rest'' else None
                 | [] => None
                 end
            else None
        | [] => None
        end
      else None
  | _ => None
  end.

(** [(\d+)] followed by the separator [sep]: the digits and the input left. *)
Definition matchChannel (sep : ascii) (s : list ascii) :
    option (list ascii * list ascii) :=
  match span isDigit s with
  | ((_ :: _) as digits, c :: rest) =>
      if Ascii.eqb c sep then Some (digits, rest) else None
  | _ => None
  end.

Definition isAlphaChar (c : ascii) : bool :=
  isDigit c || Ascii.eqb c ".".

(** [(\d+)(?:,([0-9.]+))?\)$]: the third channel and the optional alpha. *)
Definition matchTail (s : list ascii) :
    option (list ascii * option (list ascii)) :=
  match span isDigit s with
  | ((_ :: _) as digits, c :: rest) =>
      if Ascii.eqb c ")" then
        match rest with
        | [] => Some (digits, None)
        | _ => None
        end
      else if Ascii.eqb c "," then
        match span isAlphaChar rest with
        | ((_ :: _) as alpha, [c']) =>
            if Ascii.eqb c' ")" then Some (digits, Some alpha) else None
        | _ => None
        end
      else None
  | _ => None
  end.

(** The whole pattern [^rgba?\((\d+),(\d+),(\d+)(?:,([0-9.]+))?\)$] with the
    [i] flag: the four capture groups, the last one optional.  Every
    repetition is followed by a character outside its class, so the greedy
    match is the only one. *)
Definition matchColor (s : list ascii) :
    option (list ascii * list ascii * list ascii * option (list ascii)) :=
  match matchPrefix s with
  | Some s1 =>
      match matchChannel "," s1 with
      | Some (m1, s2) =>
          match matchChannel "," s2 with
          | Some (m2, s3) =>
              match matchTail s3 with
              | Some (m3, m4) => Some (m1, m2, m3, m4)
              | None => None
              end
          | None => None
          end
      | None => None
      end
  | None => None
  end.

(** [Number(s)] for a non-empty string of digits: the integer the digits
    denote.  A double holds it exactly up to [2^53]; beyond that [Number]
    rounds, and from 309 digits on it answers [Infinity]. *)
Definition numberOfDigits (digits : list ascii) : Q :=
  inject_Z (decimalValue digits).

(** [Number(s)] for a non-empty string over [[0-9.]]: digits with at most
    one dot and at least one digit denote a decimal; the rest is [NaN]. *)
Definition numberOfDecimal (s : list ascii) : number :=
  match span isDigit s with
  | (whole, []) => Num (numberOfDigits whole)
  | (whole, dot :: fraction) =>
      match span isDigit fraction with
      | (_, []) =>
          match (whole ++ fraction)%list with
          | [] => NaN
          | digits =>
              Num (inject_Z (decimalValue digits)
                   / inject_Z (10 ^ Z.of_nat (length fraction)))%Q
          end
      | _ => NaN
      end
  end.

Definition parseColor (value : string) : option Rgb :=
  match matchColor (stripWhitespace (list_ascii_of_string value)) with
  | None => None
  | Some (m1, m2, m3, m4) =>
      Some {| r := numberOfDigits m1;
              g := numberOfDigits m2;
              b := numberOfDigits m3;
              a := match m4 with
                   | None => Num 1
                   | Some alpha => numberOfDecimal alpha
                   end |}
  end.

(** The callback of [[r, g, b].map(...)]. *)
Definition linearize (channel : R) : R :=
  let normalized := (channel / 255)%R in
  if Rle_dec normalized 0.03928
  then (normalized / 12.92)%R
  else Rpower ((normalized + 0.055) / 1.055) 2.4.

Definition relativeLuminance (color : Rgb) : R :=
  match List.map linearize [Q2R (r color); Q2R (g color); Q2R (b color)] with
  | [rs; gs; bs] => (0.2126 * rs + 0.7152 * gs + 0.0722 * bs)%R
  | _ => 0%R
  end.

(** What [getComputedStyle] reports for the two sampled elements:
    [bodyBackground] is [None] when [document.body] is null. *)
Record ComputedStyles := mkComputedStyles {
  bodyBackground : option string;
  rootBackground : string
}.

(** [color && color.a > 0.05] *)
Definition opaqueEnough (color : option Rgb) : bool :=
  match color with
  | Some c => numberGt (a c) 0.05
  | None => false
  end.

Definition getReadableBackground (styles : ComputedStyles) : option Rgb :=
  let bodyColor :=
    match bodyBackground styles with
    | Some backgroundColor => parseColor backgroundColor
    | None => None
    end in
  if opaqueEnough bodyColor then bodyColor
  else
    let rootColor := parseColor (rootBackground styles) in
    if opaqueEnough rootColor then rootColor
    else None.

Definition white : Rgb := {| r := 255; g := 255; b := 255; a := Num 1 |}.

(** The colour with the given integer channels. *)
Definition rgb (red green blue : Z) (alpha : number) : Rgb :=
  {| r := inject_Z red; g := inject_Z green; b := inject_Z blue; a := alpha |}.

(** A channel value of an RGB triple: an integer from 0 to 255. *)
Definition channel (z : Z) : Prop := (0 <= z <= 255)%Z.

Definition computePageIsDark (styles : ComputedStyles) : bool :=
  let background := default white (getReadableBackground styles) in
  if Rlt_dec (relativeLuminance background) 0.5 then true else false.

(** The fallback chain as the specification words it: a background is
    usable when it parses and its alpha is above 0.05; the body's is taken
    when usable, else the root's when usable, else white. *)
Definition usableBackground (background : option string) : option Rgb :=
  match background with
  | Some value =>
      match parseColor value with
      | Some color => if numberGt (a color) 0.05 then Some color else None
      | None => None
      end
  | None => None
  end.

Definition chosenBackground (styles : ComputedStyles) : Rgb :=
  match usableBackground (bodyBackground styles) with
  | Some color => color
  | None =>
      match usableBackground (Some (rootBackground styles)) with
      | Some color => color
      | None => white
      end
  end.

(** The decimal numeral of a natural number, and the [rgb(r, g, b)] and
    [rgba(r, g, b, 0)] forms in which a computed style serialises an opaque
    and a fully transparent colour. *)
Definition decimalString (n : nat) : string :=
  NilEmpty.string_of_uint (Nat.to_uint n).

Definition rgbString (red green blue : nat) : string :=
  "rgb(" +:+ decimalString red +:+ ", " +:+ decimalString green +:+ ", "
  +:+ decimalString blue +:+ ")".

Definition transparentString (red green blue : nat) : string :=
  "rgba(" +:+ decimalString red +:+ ", " +:+ decimalString green +:+ ", "
  +:+ decimalString blue +:+ ", 0)".

End Content.

(** ** The content script: the document and the resolution pass *)

Module Dom.

(** An element below the root: tag name, [id], own text and children. *)
#[warnings="-register-all"]
Inductive Element :=
| El (tagName : string) (id : string) (textContent : string)
     (children : list Element).

Definition elementId (e : Element) : string :=
  match e with El _ i _ _ => i end.

Definition elementTag (e : Element) : string :=
  match e with El t _ _ _ => t end.

(** Induction on elements, with the hypothesis on every child. *)
Fixpoint Element_ind' (P : Element -> Prop)
    (step : forall t j txt kids, Forall P kids -> P (El t j txt kids))
    (e : Element) : P e :=
  match e with
  | El t j txt kids =>
      step t j txt kids
        ((fix all (forest : list Element) : Forall P forest :=
            match forest with
            | [] => @List.Forall_nil Element P
            | kid :: rest =>
                @List.Forall_cons Element P kid rest (Element_ind' P step kid) (all rest)
            end) kids)
  end.

(** The document as the script sees it: the attributes of the root element
    ([document.documentElement]) and the trees of elements below it.  The
    root element is always there and is not itself looked up by id. *)
Record Document := mkDocument {
  rootAttributes : gmap string string;
  rootChildren : list Element
}.

(** The number of elements with a given id in a tree, and in a forest. *)
Fixpoint countId (i : string) (e : Element) : nat :=
  match e with
  | El _ j _ kids =>
      (if String.eqb j i then 1 else 0) + sum_list (List.map (countId i) kids)
  end.

Definition countIdIn (i : string) (forest : list Element) : nat :=
  sum_list (List.map (countId i) forest).

(** The first element with a given id, in tree order. *)
Fixpoint findById (i : string) (e : Element) : option Element :=
  match e with
  | El _ j _ kids =>
      if String.eqb j i then Some e
      else
        (fix inForest (forest : list Element) : option Element :=
           match forest with
           | [] => None
           | kid :: rest =>
               match findById i kid with
               | Some found => Some found
               | None => inForest rest
               end
           end) kids
  end.

Fixpoint findByIdIn (i : string) (forest : list Element) : option Element :=
  match forest with
  | [] => None
  | kid :: rest =>
      match findById i kid with
      | Some found => Some found
      | None => findByIdIn i rest
      end
  end.

(** [document.getElementById(i)] *)
Definition getElementById (i : string) (doc : Document) : option Element :=
  findByIdIn i (rootChildren doc).

(** Detaching the first element with a given id, in tree order, from the
    subtree of an element that does not carry the id itself. *)
Fixpoint removeFirstBelow (i : string) (e : Element) : Element :=
  match e with
  | El t j txt kids =>
      El t j txt
        ((fix inForest (forest : list Element) : list Element :=
            match forest with
            | [] => []
            | kid :: rest =>
                if String.eqb (elementId kid) i then rest
                else
                  match findById i kid with
                  | Some _ => removeFirstBelow i kid :: rest
                  | None => kid :: inForest rest
                  end
            end) kids)
  end.

Fixpoint removeFirstIn (i : string) (forest : list Element) : list Element :=
  match forest with
  | [] => []
  | kid :: rest =>
      if String.eqb (elementId kid) i then rest
      else
        match findById i kid with
        | Some _ => removeFirstBelow i kid :: rest
        | None => kid :: removeFirstIn i rest
        end
  end.

(** [document.getElementById(i).remove()], when the element exists. *)
Definition removeById (i : string) (doc : Document) : Document :=
  mkDocument (rootAttributes doc) (removeFirstIn i (rootChildren doc)).

(** [document.head]: the first [head] child of the root. *)
Definition documentHead (doc : Document) : option Element :=
  List.find (fun e => String.eqb (elementTag e) "head") (rootChildren doc).

(** [parent.appendChild(child)] for the first [head] of a list of siblings;
    [None] when there is none. *)
Fixpoint appendToHead (child : Element) (siblings : list Element) :
    option (list Element) :=
  match siblings with
  | [] => None
  | El t j txt kids :: rest =>
      if String.eqb t "head"
      then Some (El t j txt (kids ++ [child])%list :: rest)
      else option_map (cons (El t j txt kids)) (appendToHead child rest)
  end.

(** [(document.head || document.documentElement).appendChild(child)] *)
Definition appendToHeadOrRoot (child : Element) (doc : Document) : Document :=
  mkDocument (rootAttributes doc)
    (match appendToHead child (rootChildren doc) with
     | Some forest => forest
     | None => (rootChildren doc ++ [child])%list
     end).

(** [root.setAttribute(name, value)] and [root.removeAttribute(name)] *)
Definition setRootAttribute (name value : string) (doc : Document) : Document :=
  mkDocument (<[name := value]> (rootAttributes doc)) (rootChildren doc).

Definition removeRootAttribute (name : string) (doc : Document) : Document :=
  mkDocument (delete name (rootAttributes doc)) (rootChildren doc).

End Dom.

Module Resolver.
Import Js Theme Content Dom.

(** The page and OS signals a resolution pass reads. *)
Record Env := mkEnv {
  locationHostname : string;
  locationHost : string;
  prefersDarkMatches : bool;
  computedStyles : ComputedStyles
}.

(** The state the script owns: the memoised brightness sample and the
    document it edits. *)
Record State := mkState {
  baselineIsDark : option bool;
  document : Document
}.

Definition resolveScheme (prefersDark : bool) (mode : ThemeMode) : ThemeScheme :=
  match mode with
  | System => if prefersDark then SchemeDark else SchemeLight
  | Light => SchemeLight
  | Dark => SchemeDark
  end.

Definition shouldInvert (scheme : ThemeScheme) (pageIsDark : bool) : bool :=
  match scheme with
  | SchemeDark => negb pageIsDark
  | SchemeLight => pageIsDark
  end.

Definition quote : string := String (ascii_of_nat 34) EmptyString.
Definition newline : string := String (ascii_of_nat 10) EmptyString.

(** [html[ATTR="value"]] *)
Definition attrSelector (attr value : string) : string :=
  String.concat "" ["html["; attr; "="; quote; value; quote; "]"].

Definition styleText : string :=
  String.concat newline
    [ "";
      attrSelector SCHEME_ATTR "dark" +:+ " { color-scheme: dark; }";
      attrSelector SCHEME_ATTR "light" +:+ " { color-scheme: light; }";
      attrSelector INVERT_ATTR "true" +:+ " {";
      "  filter: invert(1) hue-rotate(180deg);";
      "  background-color: #0f1116;";
      "}";
      attrSelector INVERT_ATTR "true" +:+ " img,";
      attrSelector INVERT_ATTR "true" +:+ " video,";
      attrSelector INVERT_ATTR "true" +:+ " iframe,";
      attrSelector INVERT_ATTR "true" +:+ " picture,";
      attrSelector INVERT_ATTR "true" +:+ " svg,";
      attrSelector INVERT_ATTR "true" +:+ " canvas {";
      "  filter: invert(1) hue-rotate(180deg);";
      "}";
      "" ].

Definition ensureStyleElement (doc : Document) : Document :=
  match getElementById STYLE_ID doc with
  | Some _ => doc
  | None =>
      let style := El "style" STYLE_ID styleText [] in
      appendToHeadOrRoot style doc
  end.

(** The body of [applyTheme], with [schemeText] the string that
    [setAttribute] makes of its argument [scheme]. *)
Definition applyThemeText (schemeText : string) (invert : bool)
    (doc : Document) : Document :=
  let doc1 := ensureStyleElement doc in
  let doc2 := setRootAttribute SCHEME_ATTR schemeText doc1 in
  setRootAttribute INVERT_ATTR (if invert then "true" else "false") doc2.

(** [applyTheme] at its declared type. *)
Definition applyTheme (scheme : ThemeScheme) (invert : bool)
    (doc : Document) : Document :=
  applyThemeText (schemeToString scheme) invert doc.

Definition clearTheme (doc : Document) : Document :=
  let doc1 := removeRootAttribute SCHEME_ATTR doc in
  let doc2 := removeRootAttribute INVERT_ATTR doc1 in
  match getElementById STYLE_ID doc2 with
  | Some _ => removeById STYLE_ID doc2
  | None => doc2
  end.

(** [location.hostname || location.host] *)
Definition pageHostname (env : Env) : string :=
  if negb (String.eqb (locationHostname env) "")
  then locationHostname env else locationHost env.

(** An inherited member is an object or a function, hence truthy, and the
    pass goes on with it: [resolveScheme] compares it with ['system'] and
    hands it back, [shouldInvert] compares it with ['dark'] and answers
    [pageIsDark], and [applyTheme] writes its text as the scheme. *)
Definition applyThemeFromSettings (settings : ThemeSettings)
    (env : Env) (st : State) : State :=
  let hostname := pageHostname env in
  if String.eqb hostname "" then
    mkState (baselineIsDark st) (clearTheme (document st))
  else
    let pageIsDark :=
      match baselineIsDark st with
      | Some sample => sample
      | None => computePageIsDark (computedStyles env)
      end in
    match readOverride (siteOverrides settings) hostname with
    | ReadUndefined => mkState (baselineIsDark st) (clearTheme (document st))
    | ReadOwn siteMode =>
        let targetScheme := resolveScheme (prefersDarkMatches env) siteMode in
        let invert := shouldInvert targetScheme pageIsDark in
        mkState (baselineIsDark st) (applyTheme targetScheme invert (document st))
    | ReadInherited name =>
        let invert := pageIsDark in
        mkState (baselineIsDark st)
          (applyThemeText (inheritedText name) invert (document st))
    end.

(** [applyFromStorage]: read the stored value, normalise it, run a pass.
    The normalised value always reads back at type [ThemeSettings]. *)
Definition applyFromStorage (storage : gmap string JsValue)
    (env : Env) (st : State) : State :=
  let stored := default JUndefined (storage !! STORAGE_KEY) in
  match settingsOfJs (normalizeSettings stored) with
  | Some settings => applyThemeFromSettings settings env st
  | None => st
  end.

(** [onStorageChanged(changes, area)], with [change] the entry of [changes]
    under [STORAGE_KEY] ([None] when there is none) and [newValue] inside. *)
Definition onStorageChanged (change : option JsValue) (area : string)
    (env : Env) (st : State) : State :=
  if negb (String.eqb area "local") then st
  else
    match change with
    | None => st
    | Some newValue =>
        match settingsOfJs (normalizeSettings newValue) with
        | Some nextSettings => applyThemeFromSettings nextSettings env st
        | None => st
        end
    end.

Definition onSystemSchemeChange (storage : gmap string JsValue)
    (env : Env) (st : State) : State :=
  applyFromStorage storage env st.

(** [start]: take the brightness sample once, then run a first pass. *)
Definition start (storage : gmap string JsValue)
    (env : Env) (st : State) : State :=
  let st1 :=
    match baselineIsDark st with
    | None => mkState (Some (computePageIsDark (computedStyles env))) (document st)
    | Some _ => st
    end in
  applyFromStorage storage env st1.

(** The two document edits, as the events of a run. *)
Inductive Edit :=
| EditApply (scheme : ThemeScheme) (invert : bool)
| EditClear.

Definition runEdit (doc : Document) (e : Edit) : Document :=
  match e with
  | EditApply scheme invert => applyTheme scheme invert doc
  | EditClear => clearTheme doc
  end.

Definition runEdits (edits : list Edit) (doc : Document) : Document :=
  fold_left runEdit edits doc.

End Resolver.

(** * Properties *)

(** ** The settings normaliser *)

Module ThemeFacts.
Import Js Theme.

(** The loop over [Object.entries] keeps the entries whose value is a mode,
    but for one under the name [__proto__]. *)
Lemma copyValidEntries_filter (entries : gmap string JsValue) :
  map_fold copyValidEntry ∅ entries = delete "__proto__" (validEntries entries).
Proof.
  unfold validEntries.
  apply (map_fold_weak_ind
           (fun acc m =>
              acc = delete "__proto__"
                      (filter (fun entry => isThemeMode entry.2 = true) m))).
  - by rewrite map_filter_empty, delete_empty.
  - intros hostname mode m acc Hfresh ->. unfold copyValidEntry.
    destruct (isThemeMode mode) eqn:Hmode.
    + rewrite map_filter_insert_True by done.
      destruct (String.eqb_spec hostname "__proto__") as [Heq|Hne].
      * subst hostname. by rewrite delete_insert_eq.
      * by rewrite delete_insert_ne.
    + rewrite map_filter_insert_not'; [done | simpl; congruence |].
      intros y Hy. by rewrite Hfresh in Hy.
Qed.

Lemma readOverride_own (overrides : gmap string ThemeMode) (hostname : string)
    (mode : ThemeMode) :
  overrides !! hostname = Some mode → readOverride overrides hostname = ReadOwn mode.
Proof. intros Hmode. unfold readOverride. by rewrite Hmode. Qed.

Lemma readOverride_undefined (overrides : gmap string ThemeMode) (hostname : string) :
  overrides !! hostname = None → inheritedName hostname = false →
  readOverride overrides hostname = ReadUndefined.
Proof. intros Hnone Hname. unfold readOverride. by rewrite Hnone, Hname. Qed.

Lemma readOverride_inherited (overrides : gmap string ThemeMode) (hostname : string) :
  overrides !! hostname = None → inheritedName hostname = true →
  readOverride overrides hostname = ReadInherited hostname.
Proof. intros Hnone Hname. unfold readOverride. by rewrite Hnone, Hname. Qed.

Lemma inheritedName_empty : inheritedName "" = false.
Proof. reflexivity. Qed.

Lemma getProp_defaultSettings_defaultMode :
  getProp defaultSettings "defaultMode" = JString "system".
Proof. unfold defaultSettings, getProp. by rewrite lookup_insert_eq. Qed.

Lemma isRecord_isObject (value : JsValue) : isRecord value = isObject value.
Proof. by destruct value. Qed.

Lemma normalizeSettings_unfold (value : JsValue) :
  normalizeSettings value = normalizeSettingsCases value.
Proof.
  destruct value as [| | flag | n | s | items | props]; try reflexivity.
  unfold normalizeSettings, normalizeSettingsCases, repairedMode, readOverrides.
  change (negb (isRecord (JObject props))) with false. cbv iota.
  rewrite getProp_defaultSettings_defaultMode, isRecord_isObject.
  unfold getProp.
  destruct (props !! "siteOverrides") as [field|]; simpl.
  - destruct (isObject field);
      rewrite ?copyValidEntries_filter, ?delete_empty;
      by destruct (props !! "defaultMode").
  - rewrite delete_empty. by destruct (props !! "defaultMode").
Qed.

Lemma isThemeMode_modeToJs (mode : ThemeMode) : isThemeMode (modeToJs mode) = true.
Proof. by destruct mode. Qed.

Lemma asThemeMode_modeToJs (mode : ThemeMode) : asThemeMode (modeToJs mode) = Some mode.
Proof. by destruct mode. Qed.

Lemma isThemeMode_asThemeMode (value : JsValue) :
  isThemeMode value = true → ∃ mode, asThemeMode value = Some mode ∧ value = modeToJs mode.
Proof.
  destruct value as [| | | | s | |]; try discriminate.
  unfold isThemeMode, asThemeMode, strictEqString. intros Hmode.
  destruct (String.eqb_spec s "light") as [Heq|_]; [subst s; by exists Light|].
  destruct (String.eqb_spec s "dark") as [Heq|_]; [subst s; by exists Dark|].
  destruct (String.eqb_spec s "system") as [Heq|_]; [subst s; by exists System|].
  discriminate.
Qed.

Lemma readOverrides_valid (props : gmap string JsValue) :
  map_Forall (fun _ v => isThemeMode v = true) (readOverrides props).
Proof.
  unfold readOverrides, validEntries.
  destruct (props !! "siteOverrides") as [field|]; [|apply map_Forall_empty].
  destruct (isObject field); [|apply map_Forall_empty].
  intros host v Hv. by apply map_lookup_filter_Some in Hv as [_ Hv].
Qed.

(** The shape and the validity of what the normaliser returns; it never
    holds an entry under [__proto__]. *)
Lemma normalizeSettings_shape (value : JsValue) :
  ∃ (mode : JsValue) (overrides : gmap string JsValue),
    normalizeSettings value
    = JObject {[ "defaultMode" := mode; "siteOverrides" := JObject overrides ]}
    ∧ isThemeMode mode = true
    ∧ map_Forall (fun _ v => isThemeMode v = true) overrides
    ∧ overrides !! "__proto__" = None.
Proof.
  rewrite normalizeSettings_unfold.
  destruct value as [| | flag | n | s | items | props];
    try (exists (JString "system"), ∅; split;
         [reflexivity | split; [reflexivity | split; [apply map_Forall_empty | done]]]).
  unfold normalizeSettingsCases. eexists _, _. split; [reflexivity|]. split; [|split].
  - unfold repairedMode. destruct (props !! "defaultMode") as [v|]; [|reflexivity].
    by destruct (isThemeMode v) eqn:Hv.
  - intros host v Hv. apply lookup_delete_Some in Hv as [_ Hv].
    exact (readOverrides_valid props host v Hv).
  - apply lookup_delete_eq.
Qed.

(** A value of that shape is left as it is. *)
Lemma normalizeSettings_fixed (mode : JsValue) (overrides : gmap string JsValue) :
  isThemeMode mode = true →
  map_Forall (fun _ v => isThemeMode v = true) overrides →
  overrides !! "__proto__" = None →
  normalizeSettings
    (JObject {[ "defaultMode" := mode; "siteOverrides" := JObject overrides ]})
  = JObject {[ "defaultMode" := mode; "siteOverrides" := JObject overrides ]}.
Proof.
  intros Hmode Hall Hproto. rewrite normalizeSettings_unfold.
  unfold normalizeSettingsCases, repairedMode, readOverrides, validEntries.
  rewrite lookup_insert_eq, lookup_insert_ne, lookup_singleton_eq by done.
  rewrite Hmode. cbn [isObject ownEntries].
  rewrite map_filter_id by (intros host v Hv; exact (Hall host v Hv)).
  by rewrite delete_id.
Qed.

Lemma settingsOfJs_shape (mode : ThemeMode) (overrides : gmap string JsValue) :
  map_Forall (fun _ v => isThemeMode v = true) overrides →
  settingsOfJs
    (JObject {[ "defaultMode" := modeToJs mode; "siteOverrides" := JObject overrides ]})
  = Some (mkThemeSettings mode (omap asThemeMode overrides)).
Proof.
  intros Hall. unfold settingsOfJs.
  rewrite lookup_insert_eq, lookup_insert_ne, lookup_singleton_eq by done.
  cbn [mbind option_bind]. rewrite asThemeMode_modeToJs.
  by rewrite bool_decide_eq_true_2.
Qed.

(** The declared return type: the normalised value reads back at type
    [ThemeSettings]. *)
Lemma normalizeSettings_typed (value : JsValue) :
  ∃ settings, settingsOfJs (normalizeSettings value) = Some settings.
Proof.
  destruct (normalizeSettings_shape value) as (mode & overrides & -> & Hmode & Hall & _).
  apply isThemeMode_asThemeMode in Hmode as (m & _ & ->).
  eexists. by apply settingsOfJs_shape.
Qed.

Lemma omap_asThemeMode_fmap (overrides : gmap string ThemeMode) :
  omap asThemeMode (modeToJs <$> overrides) = overrides.
Proof.
  apply map_eq. intros host. rewrite lookup_omap, lookup_fmap.
  destruct (overrides !! host) as [mode|]; [|reflexivity].
  apply asThemeMode_modeToJs.
Qed.

Lemma settingsToJs_valid (overrides : gmap string ThemeMode) :
  map_Forall (fun _ v => isThemeMode v = true) (modeToJs <$> overrides).
Proof.
  intros host v Hv. apply lookup_fmap_Some in Hv as (mode & <- & _).
  apply isThemeMode_modeToJs.
Qed.

(** Settings written by the popup survive the normaliser unchanged when no
    override stands under [__proto__]. *)
Lemma normalizeSettings_settingsToJs (settings : ThemeSettings) :
  siteOverrides settings !! "__proto__" = None →
  normalizeSettings (settingsToJs settings) = settingsToJs settings.
Proof.
  destruct settings as [mode overrides]. unfold settingsToJs.
  cbn [defaultMode siteOverrides]. intros Hproto.
  apply normalizeSettings_fixed.
  - apply isThemeMode_modeToJs.
  - apply settingsToJs_valid.
  - by rewrite lookup_fmap, Hproto.
Qed.

Lemma settingsOfJs_settingsToJs (settings : ThemeSettings) :
  settingsOfJs (settingsToJs settings) = Some settings.
Proof.
  destruct settings as [mode overrides]. unfold settingsToJs.
  cbn [defaultMode siteOverrides].
  rewrite settingsOfJs_shape by apply settingsToJs_valid.
  by rewrite omap_asThemeMode_fmap.
Qed.

Lemma settingsOfJs_normalizeSettings_settingsToJs (settings : ThemeSettings) :
  siteOverrides settings !! "__proto__" = None →
  settingsOfJs (normalizeSettings (settingsToJs settings)) = Some settings.
Proof.
  intros Hproto. rewrite normalizeSettings_settingsToJs by done.
  apply settingsOfJs_settingsToJs.
Qed.

(** In general the override under [__proto__] is the one that is lost. *)
Lemma settingsOfJs_normalizeSettings_delete (settings : ThemeSettings) :
  settingsOfJs (normalizeSettings (settingsToJs settings))
  = Some (mkThemeSettings (defaultMode settings)
            (delete "__proto__" (siteOverrides settings))).
Proof.
  rewrite <- (settingsOfJs_normalizeSettings_settingsToJs
                (mkThemeSettings (defaultMode settings)
                   (delete "__proto__" (siteOverrides settings))))
    by apply lookup_delete_eq.
  f_equal. rewrite !normalizeSettings_unfold.
  destruct settings as [mode overrides]. unfold settingsToJs.
  cbn [defaultMode siteOverrides].
  unfold normalizeSettingsCases, repairedMode, readOverrides, validEntries.
  rewrite !lookup_insert_eq, !lookup_insert_ne, !lookup_singleton_eq by done.
  cbn [isObject ownEntries].
  rewrite !map_filter_id
    by (intros host v Hv; exact (settingsToJs_valid _ host v Hv)).
  by rewrite fmap_delete, delete_delete_eq.
Qed.

(** Malformed stored values fall back to the defaults. *)
Example normalizeSettings_malformed :
  normalizeSettings (JString "dark") = defaultSettings
  ∧ normalizeSettings JUndefined = defaultSettings
  ∧ normalizeSettings (JArray [JString "dark"]) = defaultSettings
  ∧ normalizeSettings (JObject {[ "siteOverrides" := JString "not-an-object" ]})
    = defaultSettings.
Proof.
  repeat split; reflexivity.
Qed.

(** An array under [siteOverrides] passes [isRecord]: its entries are the
    index-named ones. *)
Example normalizeSettings_array_overrides :
  normalizeSettings (JObject {[ "siteOverrides" := JArray [JString "dark"; JNull] ]})
  = JObject {[ "defaultMode" := JString "system";
               "siteOverrides" := JObject {[ "0" := JString "dark" ]} ]}.
Proof. reflexivity. Qed.

(** A valid override stored under the key [__proto__] is not copied: the
    result has no override at all. *)
Example normalizeSettings_proto_key :
  normalizeSettings
    (JObject {[ "siteOverrides" := JObject {[ "__proto__" := JString "dark" ]} ]})
  = defaultSettings.
Proof. reflexivity. Qed.

(** C2, as stated, fails on the code in two places.  The specification
    copies entries from a plain key-value object only and has no override
    when [siteOverrides] is anything else, whereas [isRecord] lets an array
    through, whose entry [0] is then copied.  And the specification accepts
    any string key, whereas a valid entry under the key [__proto__] is
    lost in the assignment. *)
Lemma normalizeSettings_departs_from_spec :
  normalizeSettings (JObject {[ "siteOverrides" := JArray [JString "dark"] ]})
  ≠ normalizeSettingsSpec (JObject {[ "siteOverrides" := JArray [JString "dark"] ]})
  ∧ normalizeSettings
      (JObject {[ "siteOverrides" := JObject {[ "__proto__" := JString "dark" ]} ]})
    ≠ normalizeSettingsSpec
        (JObject {[ "siteOverrides" := JObject {[ "__proto__" := JString "dark" ]} ]}).
Proof.
  split; intros Heq.
  - apply (f_equal (fun v => getProp (getProp v "siteOverrides") "0")) in Heq.
    vm_compute in Heq. discriminate Heq.
  - apply (f_equal (fun v => getProp (getProp v "siteOverrides") "__proto__")) in Heq.
    vm_compute in Heq. discriminate Heq.
Qed.

(** C2, amended: [normalizeSettings] returns the default settings unless
    its input is a plain key-value object (an array, which has neither
    field, yields them too); otherwise the [defaultMode] of the result is
    the input's when that is one of light, dark and system, and system
    when not, and for every key other than [__proto__] the result has an
    override under that key exactly when the input's [siteOverrides] field
    is a non-null object, an array counting as one through its index-named
    entries, with an entry under that key whose value is one of the three
    modes, and the override is that value.  Nothing is said of the key
    [__proto__]. *)
Theorem normalizeSettings_copies_valid_entries (value : JsValue) :
  match value with
  | JObject props =>
      ∃ overrides : gmap string JsValue,
        normalizeSettings value
        = JObject {[ "defaultMode" := repairedMode props;
                     "siteOverrides" := JObject overrides ]}
        ∧ ∀ hostname, hostname ≠ "__proto__" →
            overrides !! hostname = readOverrides props !! hostname
  | JArray _ | JUndefined | JNull | JBool _ | JNumber _ | JString _ =>
      normalizeSettings value = defaultSettings
  end.
Proof.
  destruct value as [| | flag | n | s | items | props]; try reflexivity.
  rewrite normalizeSettings_unfold. unfold normalizeSettingsCases.
  eexists. split; [reflexivity|].
  intros hostname Hne. by rewrite lookup_delete_ne.
Qed.

(** C3: [normalizeSettings] is idempotent, and whatever the input its
    result is an object whose [defaultMode] is a valid mode and whose
    [siteOverrides] is an object all of whose values are valid modes. *)
Theorem normalizeSettings_idempotent_valid (value : JsValue) :
  normalizeSettings (normalizeSettings value) = normalizeSettings value
  ∧ ∃ (mode : JsValue) (overrides : gmap string JsValue),
      normalizeSettings value
      = JObject {[ "defaultMode" := mode; "siteOverrides" := JObject overrides ]}
      ∧ isThemeMode mode = true
      ∧ map_Forall (fun _ v => isThemeMode v = true) overrides.
Proof.
  destruct (normalizeSettings_shape value)
    as (mode & overrides & Hshape & Hmode & Hall & Hproto).
  split.
  - rewrite Hshape. by apply normalizeSettings_fixed.
  - by exists mode, overrides.
Qed.

End ThemeFacts.

(** ** The popup *)

Module PopupFacts.
Import Js Theme Popup.

Lemma truthyHost_Some (host : string) :
  host ≠ "" → truthyHost (Some host) = true.
Proof.
  intros Hne. unfold truthyHost. by destruct (String.eqb_spec host "").
Qed.

Lemma setMode_active (mode : ThemeMode) (st : PopupState)
    (storage : gmap string JsValue) (host : string) :
  activeHost st = Some host → host ≠ "" →
  setMode mode st storage
  = updateSettings
      (mkThemeSettings mode (<[host := mode]> (siteOverrides (settings st))))
      st storage.
Proof.
  intros Hhost Hne. unfold setMode. rewrite Hhost.
  by rewrite (truthyHost_Some host Hne).
Qed.

Lemma setMode_inactive (mode : ThemeMode) (st : PopupState)
    (storage : gmap string JsValue) :
  truthyHost (activeHost st) = false →
  setMode mode st storage
  = updateSettings (mkThemeSettings mode (siteOverrides (settings st))) st storage.
Proof.
  intros Hfalsy. unfold setMode.
  destruct (activeHost st) as [host|]; [|reflexivity]. by rewrite Hfalsy.
Qed.

(** C10: [setMode mode] writes, to the popup state and to the store, a
    settings value whose [defaultMode] is [mode]; with an active hostname
    the entry of [siteOverrides] for that hostname is [mode] too and every
    other entry is as before; with no active hostname [siteOverrides] is
    unchanged.  So picking a mode for a site also changes the global
    default. *)
Theorem setMode_frame (mode : ThemeMode) (st : PopupState)
    (storage : gmap string JsValue) :
  let next := settings (setMode mode st storage).1 in
  (setMode mode st storage).2 !! STORAGE_KEY = Some (settingsToJs next)
  ∧ defaultMode next = mode
  ∧ (∀ host, activeHost st = Some host → host ≠ "" →
       siteOverrides next !! host = Some mode
       ∧ ∀ other, other ≠ host →
           siteOverrides next !! other = siteOverrides (settings st) !! other)
  ∧ (truthyHost (activeHost st) = false →
       siteOverrides next = siteOverrides (settings st)).
Proof.
  cbv zeta. repeat split.
  - unfold setMode, updateSettings.
    destruct (activeHost st) as [host|]; [destruct (negb _)|];
      cbn [fst snd settings]; apply lookup_insert_eq.
  - unfold setMode, updateSettings.
    by destruct (activeHost st) as [host|]; [destruct (negb _)|].
  - rewrite (setMode_active mode st storage host) by done.
    cbn. apply lookup_insert_eq.
  - intros other Hother.
    rewrite (setMode_active mode st storage host) by done.
    cbn. by apply lookup_insert_ne.
  - intros Hfalsy. by rewrite setMode_inactive.
Qed.

(** The theorem at a popup opened on docs.example.com, with one other site
    already overridden. *)
Lemma setMode_frame_witness :
  let st := mkPopupState (mkThemeSettings System {[ "other.org" := Light ]})
              (Some "docs.example.com") true in
  let next := settings (setMode Dark st ∅).1 in
  siteOverrides next !! "docs.example.com" = Some Dark
  ∧ siteOverrides next !! "other.org" = Some Light.
Proof.
  cbv zeta.
  pose proof (setMode_frame Dark
                (mkPopupState (mkThemeSettings System {[ "other.org" := Light ]})
                   (Some "docs.example.com") true) ∅) as Hframe.
  cbv zeta in Hframe.
  destruct Hframe as (_ & _ & Hactive & _).
  destruct (Hactive "docs.example.com" eq_refl ltac:(discriminate)) as [Hhost Hothers].
  split; [exact Hhost|].
  rewrite (Hothers "other.org" ltac:(discriminate)). reflexivity.
Defined.

End PopupFacts.

(** ** The document: counting, finding and detaching elements by id *)

Module DomFacts.
Import Dom.

Lemma findById_unfold (i t j txt : string) (kids : list Element) :
  findById i (El t j txt kids)
  = if String.eqb j i then Some (El t j txt kids) else findByIdIn i kids.
Proof.
  simpl. destruct (String.eqb j i); [reflexivity|].
  induction kids as [|kid rest IH]; [reflexivity|].
  simpl. destruct (findById i kid); [reflexivity | exact IH].
Qed.

Lemma removeFirstBelow_unfold (i t j txt : string) (kids : list Element) :
  removeFirstBelow i (El t j txt kids) = El t j txt (removeFirstIn i kids).
Proof.
  simpl. f_equal.
  induction kids as [|kid rest IH]; [reflexivity|].
  simpl. destruct (String.eqb (elementId kid) i); [reflexivity|].
  destruct (findById i kid); [reflexivity | by rewrite IH].
Qed.

Lemma countId_unfold (i t j txt : string) (kids : list Element) :
  countId i (El t j txt kids)
  = (if String.eqb j i then 1 else 0) + countIdIn i kids.
Proof. reflexivity. Qed.

Lemma countIdIn_cons (i : string) (kid : Element) (rest : list Element) :
  countIdIn i (kid :: rest) = countId i kid + countIdIn i rest.
Proof. reflexivity. Qed.

Lemma countIdIn_app (i : string) (front back : list Element) :
  countIdIn i (front ++ back)%list = countIdIn i front + countIdIn i back.
Proof.
  induction front as [|kid rest IH]; [reflexivity|].
  change ((kid :: rest) ++ back)%list with (kid :: (rest ++ back))%list.
  rewrite !countIdIn_cons, IH. lia.
Qed.

(** An element carrying the id counts for one at least. *)
Lemma countId_root (i : string) (e : Element) :
  String.eqb (elementId e) i = true → (1 ≤ countId i e)%nat.
Proof.
  destruct e as [t j txt kids]. cbn [elementId]. intros Hid.
  rewrite countId_unfold, Hid. lia.
Qed.

(** The lookup fails exactly when no element carries the id. *)
Lemma findById_None (i : string) (e : Element) :
  findById i e = None ↔ countId i e = 0.
Proof.
  induction e as [t j txt kids IH] using Element_ind'.
  rewrite findById_unfold, countId_unfold.
  destruct (String.eqb j i).
  - split; [discriminate | lia].
  - cbn [Nat.add]. induction IH as [|kid rest Hkid _ IHrest]; [done|].
    rewrite countIdIn_cons. cbn [findByIdIn].
    destruct (findById i kid) as [found|] eqn:Hfind.
    + split; [discriminate|]. intros Hzero.
      assert (countId i kid = 0) as Hk by lia.
      apply Hkid in Hk. discriminate.
    + rewrite IHrest. assert (countId i kid = 0) as -> by by apply Hkid.
      done.
Qed.

Lemma findByIdIn_None (i : string) (forest : list Element) :
  findByIdIn i forest = None ↔ countIdIn i forest = 0.
Proof.
  induction forest as [|kid rest IH]; [done|].
  rewrite countIdIn_cons. cbn [findByIdIn].
  destruct (findById i kid) as [found|] eqn:Hfind.
  - split; [discriminate|]. intros Hzero.
    assert (countId i kid = 0) as Hk by lia.
    apply findById_None in Hk. congruence.
  - apply findById_None in Hfind. rewrite IH, Hfind. done.
Qed.

(** Detaching the first element with the id lowers the count, whenever
    there is one: the element goes, with whatever it contains. *)
Lemma removeFirstBelow_count (i : string) (e : Element) :
  String.eqb (elementId e) i = false →
  (countId i (removeFirstBelow i e) ≤ Nat.pred (countId i e))%nat.
Proof.
  induction e as [t j txt kids IH] using Element_ind'.
  cbn [elementId]. intros Hroot.
  rewrite removeFirstBelow_unfold, !countId_unfold, Hroot. cbn [Nat.add].
  induction IH as [|kid rest Hkid _ IHrest]; [done|].
  cbn [removeFirstIn]. rewrite countIdIn_cons.
  destruct (String.eqb (elementId kid) i) eqn:Hid.
  - pose proof (countId_root i kid Hid). lia.
  - destruct (findById i kid) as [found|] eqn:Hfind.
    + rewrite countIdIn_cons. specialize (Hkid eq_refl).
      assert (countId i kid ≠ 0) as Hpos.
      { intros Hzero. apply findById_None in Hzero. congruence. }
      lia.
    + apply findById_None in Hfind. rewrite countIdIn_cons, Hfind. lia.
Qed.

Lemma removeFirstIn_count (i : string) (forest : list Element) :
  (countIdIn i (removeFirstIn i forest) ≤ Nat.pred (countIdIn i forest))%nat.
Proof.
  induction forest as [|kid rest IH]; [done|].
  cbn [removeFirstIn]. rewrite countIdIn_cons.
  destruct (String.eqb (elementId kid) i) eqn:Hid.
  - pose proof (countId_root i kid Hid). lia.
  - destruct (findById i kid) as [found|] eqn:Hfind.
    + rewrite countIdIn_cons.
      pose proof (removeFirstBelow_count i kid Hid).
      assert (countId i kid ≠ 0) as Hpos.
      { intros Hzero. apply findById_None in Hzero. congruence. }
      lia.
    + apply findById_None in Hfind. rewrite countIdIn_cons, Hfind. lia.
Qed.

(** Appending a child adds what the child contains, wherever it lands. *)
Lemma appendToHead_count (i : string) (child : Element)
    (siblings forest : list Element) :
  appendToHead child siblings = Some forest →
  countIdIn i forest = countIdIn i siblings + countId i child.
Proof.
  revert forest. induction siblings as [|[t j txt kids] rest IH]; [done|].
  intros forest. cbn [appendToHead].
  destruct (String.eqb t "head").
  - intros [= <-]. rewrite !countIdIn_cons, !countId_unfold, countIdIn_app.
    rewrite (countIdIn_cons i child []). cbn [countIdIn List.map sum_list]. lia.
  - destruct (appendToHead child rest) as [forest'|]; [|done].
    intros [= <-]. rewrite !countIdIn_cons, (IH forest' eq_refl). lia.
Qed.

Lemma appendToHeadOrRoot_count (i : string) (child : Element) (doc : Document) :
  countIdIn i (rootChildren (appendToHeadOrRoot child doc))
  = countIdIn i (rootChildren doc) + countId i child.
Proof.
  unfold appendToHeadOrRoot. cbn [rootChildren].
  destruct (appendToHead child (rootChildren doc)) as [forest|] eqn:Hhead.
  - by apply appendToHead_count.
  - rewrite countIdIn_app, (countIdIn_cons i child []).
    cbn [countIdIn List.map sum_list]. lia.
Qed.

(** The child goes under the head exactly when [document.head] exists. *)
Lemma appendToHead_None (child : Element) (doc : Document) :
  appendToHead child (rootChildren doc) = None ↔ documentHead doc = None.
Proof.
  unfold documentHead.
  induction (rootChildren doc) as [|[t j txt kids] rest IH]; [done|].
  cbn [appendToHead List.find elementTag].
  destruct (String.eqb t "head"); [done|].
  rewrite <- IH. by destruct (appendToHead child rest).
Qed.

End DomFacts.

(** ** Brightness sampling *)

Module ContentFacts.
Import Js Content.

Local Open Scope R_scope.

Lemma Q2R_inject_Z (z : Z) : Q2R (inject_Z z) = IZR z.
Proof. unfold Q2R, inject_Z. cbn [Qnum Qden]. lra. Qed.

Lemma relativeLuminance_unfold (color : Rgb) :
  relativeLuminance color
  = 0.2126 * linearize (Q2R (r color)) + 0.7152 * linearize (Q2R (g color))
    + 0.0722 * linearize (Q2R (b color)).
Proof. reflexivity. Qed.

Lemma linearize_low (x : R) :
  x / 255 <= 0.03928 → linearize x = x / 255 / 12.92.
Proof. intros Hlow. unfold linearize. by destruct (Rle_dec (x / 255) 0.03928). Qed.

Lemma linearize_high (x : R) :
  0.03928 < x / 255 →
  linearize x = Rpower ((x / 255 + 0.055) / 1.055) 2.4.
Proof.
  intros Hhigh. unfold linearize.
  destruct (Rle_dec (x / 255) 0.03928); [lra | reflexivity].
Qed.

Lemma Rpower_one (y : R) : Rpower 1 y = 1.
Proof. unfold Rpower. by rewrite ln_1, Rmult_0_r, exp_0. Qed.

(** Comparing with a power of exponent 2.4 = 12/5 by comparing integer
    powers. *)
Lemma Rpower_12_5 (x : R) : 0 < x → Rpower x 2.4 = Rpower (x ^ 12) (1 / 5).
Proof.
  intros Hpos. rewrite <- (Rpower_pow 12 x Hpos), Rpower_mult.
  f_equal. rewrite INR_IZR_INZ. change (Z.of_nat 12) with 12%Z. lra.
Qed.

Lemma Rpower_5_5 (x : R) : 0 < x → x = Rpower (x ^ 5) (1 / 5).
Proof.
  intros Hpos. rewrite <- (Rpower_pow 5 x Hpos), Rpower_mult.
  replace (INR 5 * (1 / 5)) with 1
    by (rewrite INR_IZR_INZ; change (Z.of_nat 5) with 5%Z; lra).
  by rewrite Rpower_1.
Qed.

Lemma le_Rpower_24 (lo x : R) :
  0 < lo → 0 < x → lo ^ 5 <= x ^ 12 → lo <= Rpower x 2.4.
Proof.
  intros Hlo Hx Hpow. rewrite (Rpower_12_5 x Hx), (Rpower_5_5 lo Hlo) at 1.
  apply Rle_Rpower_l; [lra|]. split; [by apply pow_lt | exact Hpow].
Qed.

Lemma Rpower_24_lt (x hi : R) :
  0 < x → 0 < hi → x ^ 12 < hi ^ 5 → Rpower x 2.4 < hi.
Proof.
  intros Hx Hhi Hpow. rewrite (Rpower_12_5 x Hx), (Rpower_5_5 hi Hhi) at 1.
  apply Rlt_Rpower_l; [lra|]. split; [by apply pow_lt | exact Hpow].
Qed.

(** The linear piece at channel 10 lies below the power piece at 11. *)
Lemma linearize_10_11 : linearize 10 <= linearize 11.
Proof.
  rewrite linearize_low, linearize_high by lra.
  apply le_Rpower_24; lra.
Qed.

(** An integer channel is on the linear piece exactly up to 10. *)
Lemma low_channel (z : Z) : IZR z / 255 <= 0.03928 → (z <= 10)%Z.
Proof.
  intros Hlow. assert (z < 11)%Z; [|lia]. apply lt_IZR. lra.
Qed.

Lemma high_channel (z : Z) : 0.03928 < IZR z / 255 → (11 <= z)%Z.
Proof.
  intros Hhigh. assert (10 < z)%Z; [|lia]. apply lt_IZR. lra.
Qed.

Lemma linearize_low_mono (x y : R) :
  x <= y → y / 255 <= 0.03928 → linearize x <= linearize y.
Proof. intros Hxy Hy. rewrite !linearize_low by lra. lra. Qed.

Lemma linearize_high_mono (x y : R) :
  x <= y → 0.03928 < x / 255 → linearize x <= linearize y.
Proof.
  intros Hxy Hx. rewrite !linearize_high by lra.
  apply Rle_Rpower_l; [lra|]. split.
  - apply Rdiv_lt_0_compat; lra.
  - apply Rmult_le_compat_r; lra.
Qed.

(** On integer channels the linearisation is monotone. *)
Lemma linearize_mono (z z' : Z) :
  (z <= z')%Z → linearize (IZR z) <= linearize (IZR z').
Proof.
  intros Hle. pose proof (IZR_le z z' Hle) as Hreal.
  destruct (Rle_dec (IZR z' / 255) 0.03928) as [Hlow'|Hhigh'].
  - by apply linearize_low_mono.
  - apply Rnot_le_lt in Hhigh'.
    destruct (Rle_dec (IZR z / 255) 0.03928) as [Hlow|Hhigh].
    + pose proof (IZR_le z 10 (low_channel z Hlow)).
      pose proof (IZR_le 11 z' (high_channel z' Hhigh')).
      apply Rle_trans with (linearize 10); [apply linearize_low_mono; lra|].
      apply Rle_trans with (linearize 11); [apply linearize_10_11|].
      apply linearize_high_mono; lra.
    + apply Rnot_le_lt in Hhigh. by apply linearize_high_mono.
Qed.

Lemma linearize_0 : linearize 0 = 0.
Proof. rewrite linearize_low by lra. lra. Qed.

Lemma linearize_255 : linearize 255 = 1.
Proof.
  rewrite linearize_high by lra.
  replace ((255 / 255 + 0.055) / 1.055) with 1 by lra. apply Rpower_one.
Qed.

(** Between 0 and 255 the linearisation stays between 0 and 1; above 255
    it exceeds 1. *)
Lemma linearize_bounds (x : R) : 0 <= x <= 255 → 0 <= linearize x <= 1.
Proof.
  intros [Hlo Hhi].
  destruct (Rle_dec (x / 255) 0.03928) as [Hlow|Hhigh].
  - rewrite linearize_low by done. lra.
  - apply Rnot_le_lt in Hhigh. rewrite linearize_high by done. split.
    + left. apply exp_pos.
    + rewrite <- (Rpower_one 2.4). apply Rle_Rpower_l; [lra|]. split.
      * apply Rdiv_lt_0_compat; lra.
      * lra.
Qed.

Lemma linearize_above (x : R) : 255 < x → 1 < linearize x.
Proof.
  intros Hx. rewrite linearize_high by lra.
  rewrite <- (Rpower_one 2.4) at 1. apply Rlt_Rpower_l; lra.
Qed.

(** Off the integers the two pieces do not meet: just above the threshold
    the power piece is below the linear piece just under it. *)
Remark linearize_drops_after_threshold : linearize 10.017 < linearize 10.0164.
Proof.
  rewrite (linearize_low 10.0164), (linearize_high 10.017) by lra.
  apply Rpower_24_lt; lra.
Qed.

Lemma Q2R_channel (q : Q) : (0 <= q <= 255)%Q → 0 <= Q2R q <= 255.
Proof.
  intros [Hlo Hhi]. apply Qle_Rle in Hlo, Hhi.
  change (Q2R 0) with (Q2R (inject_Z 0)) in Hlo.
  change (Q2R 255) with (Q2R (inject_Z 255)) in Hhi.
  rewrite Q2R_inject_Z in Hlo, Hhi. lra.
Qed.

Lemma relativeLuminance_rgb (red green blue : Z) (alpha : number) :
  relativeLuminance (rgb red green blue alpha)
  = 0.2126 * linearize (IZR red) + 0.7152 * linearize (IZR green)
    + 0.0722 * linearize (IZR blue).
Proof.
  rewrite relativeLuminance_unfold. cbn [rgb r g b].
  by rewrite !Q2R_inject_Z.
Qed.

Lemma relativeLuminance_bounds (color : Rgb) :
  (0 <= r color <= 255)%Q → (0 <= g color <= 255)%Q → (0 <= b color <= 255)%Q →
  0 <= relativeLuminance color <= 1.
Proof.
  intros Hr Hg Hb. rewrite relativeLuminance_unfold.
  pose proof (linearize_bounds _ (Q2R_channel _ Hr)).
  pose proof (linearize_bounds _ (Q2R_channel _ Hg)).
  pose proof (linearize_bounds _ (Q2R_channel _ Hb)).
  lra.
Qed.

Lemma relativeLuminance_white : relativeLuminance white = 1.
Proof.
  change white with (rgb 255 255 255 (Num 1)).
  rewrite relativeLuminance_rgb, linearize_255. lra.
Qed.

(** What [computePageIsDark] compares with 0.5 is the luminance of the
    colour the fallback chain chooses. *)
Lemma getReadableBackground_chosen (styles : ComputedStyles) :
  default white (getReadableBackground styles) = chosenBackground styles.
Proof.
  unfold getReadableBackground, chosenBackground, usableBackground, opaqueEnough.
  destruct (bodyBackground styles) as [bodyValue|].
  - destruct (parseColor bodyValue) as [bodyColor|].
    + destruct (numberGt (a bodyColor) 0.05); [reflexivity|].
      destruct (parseColor (rootBackground styles)) as [rootColor|]; [|reflexivity].
      by destruct (numberGt (a rootColor) 0.05).
    + destruct (parseColor (rootBackground styles)) as [rootColor|]; [|reflexivity].
      by destruct (numberGt (a rootColor) 0.05).
  - destruct (parseColor (rootBackground styles)) as [rootColor|]; [|reflexivity].
    by destruct (numberGt (a rootColor) 0.05).
Qed.

Lemma computePageIsDark_chosen (styles : ComputedStyles) :
  computePageIsDark styles = true
  ↔ relativeLuminance (chosenBackground styles) < 0.5.
Proof.
  unfold computePageIsDark. rewrite getReadableBackground_chosen.
  destruct (Rlt_dec (relativeLuminance (chosenBackground styles)) 0.5);
    split; intros; done.
Qed.


(** C6: over RGB triples with channels in 0..255, [relativeLuminance] is
    non-decreasing in the red, in the green and in the blue channel, each
    with the other two fixed; it is 0 at (0,0,0) and 1 at (255,255,255). *)
Theorem relativeLuminance_monotone_endpoints :
  (∀ red red' green blue alpha,
     channel red → channel red' → channel green → channel blue →
     (red <= red')%Z →
     relativeLuminance (rgb red green blue alpha)
     <= relativeLuminance (rgb red' green blue alpha))
  ∧ (∀ red green green' blue alpha,
       channel red → channel green → channel green' → channel blue →
       (green <= green')%Z →
       relativeLuminance (rgb red green blue alpha)
       <= relativeLuminance (rgb red green' blue alpha))
  ∧ (∀ red green blue blue' alpha,
       channel red → channel green → channel blue → channel blue' →
       (blue <= blue')%Z →
       relativeLuminance (rgb red green blue alpha)
       <= relativeLuminance (rgb red green blue' alpha))
  ∧ (∀ alpha, relativeLuminance (rgb 0 0 0 alpha) = 0)
  ∧ (∀ alpha, relativeLuminance (rgb 255 255 255 alpha) = 1).
Proof.
  repeat split.
  - intros red red' green blue alpha _ _ _ _ Hle.
    rewrite !relativeLuminance_rgb. pose proof (linearize_mono red red' Hle). lra.
  - intros red green green' blue alpha _ _ _ _ Hle.
    rewrite !relativeLuminance_rgb. pose proof (linearize_mono green green' Hle). lra.
  - intros red green blue blue' alpha _ _ _ _ Hle.
    rewrite !relativeLuminance_rgb. pose proof (linearize_mono blue blue' Hle). lra.
  - intros alpha. rewrite relativeLuminance_rgb, linearize_0. lra.
  - intros alpha. rewrite relativeLuminance_rgb, linearize_255. lra.
Qed.

(** The theorem across the threshold between the two pieces of the curve:
    red 10 is on the linear piece, red 11 on the power piece. *)
Lemma relativeLuminance_monotone_witness :
  channel 10 ∧ channel 11 ∧ channel 200 ∧ channel 30 ∧ (10 <= 11)%Z
  ∧ relativeLuminance (rgb 10 200 30 (Num 1))
    <= relativeLuminance (rgb 11 200 30 (Num 1)).
Proof.
  assert (channel 10) as H10 by (unfold channel; lia).
  assert (channel 11) as H11 by (unfold channel; lia).
  assert (channel 200) as H200 by (unfold channel; lia).
  assert (channel 30) as H30 by (unfold channel; lia).
  assert (10 <= 11)%Z as Hle by lia.
  repeat split; try (unfold channel in *; lia).
  exact (proj1 relativeLuminance_monotone_endpoints
           10%Z 11%Z 200%Z 30%Z (Num 1) H10 H11 H200 H30 Hle).
Defined.

(** C9: [parseColor] does not check the range of a channel:
    ["rgb(300,300,300)"] parses to a colour with all three channels above
    255, whose luminance exceeds 1; the luminance is within 0 and 1 for
    channels from 0 to 255. *)
Theorem parseColor_unchecked_range :
  (∃ color, parseColor "rgb(300,300,300)" = Some color
            ∧ (255 < r color)%Q ∧ (255 < g color)%Q ∧ (255 < b color)%Q
            ∧ 1 < relativeLuminance color)
  ∧ (∀ color,
       (0 <= r color <= 255)%Q → (0 <= g color <= 255)%Q →
       (0 <= b color <= 255)%Q →
       0 <= relativeLuminance color <= 1).
Proof.
  split; [|exact relativeLuminance_bounds].
  exists (rgb 300 300 300 (Num 1)). split; [vm_compute; reflexivity|].
  repeat split; try reflexivity.
  rewrite relativeLuminance_rgb.
  pose proof (linearize_above 300 ltac:(lra)). lra.
Qed.

(** The bounds at the assumed-white background. *)
Lemma parseColor_unchecked_range_witness :
  0 <= relativeLuminance white <= 1.
Proof.
  apply (proj2 parseColor_unchecked_range white); split; discriminate.
Defined.

End ContentFacts.

(** ** The resolution pass and the document edits *)

Module ResolverFacts.
Import Js Theme Content Dom Resolver.

Lemma attrs_distinct : SCHEME_ATTR ≠ INVERT_ATTR.
Proof. discriminate. Qed.

Lemma style_countId : countId STYLE_ID (El "style" STYLE_ID styleText []) = 1%nat.
Proof. rewrite DomFacts.countId_unfold, String.eqb_refl. reflexivity. Qed.

(** [ensureStyleElement] adds one element when there is none with the
    managed id and nothing otherwise. *)
Lemma ensureStyleElement_count (doc : Document) :
  countIdIn STYLE_ID (rootChildren (ensureStyleElement doc))
  = Nat.max 1 (countIdIn STYLE_ID (rootChildren doc)).
Proof.
  unfold ensureStyleElement, getElementById.
  destruct (findByIdIn STYLE_ID (rootChildren doc)) as [found|] eqn:Hfind.
  - assert (countIdIn STYLE_ID (rootChildren doc) ≠ 0%nat) as Hpos.
    { intros Hzero. apply DomFacts.findByIdIn_None in Hzero. congruence. }
    lia.
  - apply DomFacts.findByIdIn_None in Hfind.
    rewrite DomFacts.appendToHeadOrRoot_count, style_countId, Hfind. reflexivity.
Qed.

Lemma ensureStyleElement_attributes (doc : Document) :
  rootAttributes (ensureStyleElement doc) = rootAttributes doc.
Proof.
  unfold ensureStyleElement. by destruct (getElementById STYLE_ID doc).
Qed.

Lemma ensureStyleElement_found (doc : Document) :
  findByIdIn STYLE_ID (rootChildren (ensureStyleElement doc)) ≠ None.
Proof.
  intros Hnone. apply DomFacts.findByIdIn_None in Hnone.
  rewrite ensureStyleElement_count in Hnone. lia.
Qed.

Lemma applyThemeText_children (schemeText : string) (invert : bool) (doc : Document) :
  rootChildren (applyThemeText schemeText invert doc)
  = rootChildren (ensureStyleElement doc).
Proof. reflexivity. Qed.

Lemma applyThemeText_attributes (schemeText : string) (invert : bool) (doc : Document) :
  rootAttributes (applyThemeText schemeText invert doc)
  = <[INVERT_ATTR := if invert then "true" else "false"]>
      (<[SCHEME_ATTR := schemeText]> (rootAttributes doc)).
Proof.
  unfold applyThemeText, setRootAttribute. cbn [rootAttributes].
  by rewrite ensureStyleElement_attributes.
Qed.

Lemma applyTheme_children (scheme : ThemeScheme) (invert : bool) (doc : Document) :
  rootChildren (applyTheme scheme invert doc)
  = rootChildren (ensureStyleElement doc).
Proof. reflexivity. Qed.

Lemma applyTheme_attributes (scheme : ThemeScheme) (invert : bool) (doc : Document) :
  rootAttributes (applyTheme scheme invert doc)
  = <[INVERT_ATTR := if invert then "true" else "false"]>
      (<[SCHEME_ATTR := schemeToString scheme]> (rootAttributes doc)).
Proof. apply applyThemeText_attributes. Qed.

Lemma applyTheme_count (scheme : ThemeScheme) (invert : bool) (doc : Document) :
  countIdIn STYLE_ID (rootChildren (applyTheme scheme invert doc))
  = Nat.max 1 (countIdIn STYLE_ID (rootChildren doc)).
Proof. rewrite applyTheme_children. apply ensureStyleElement_count. Qed.

Lemma document_eq (doc doc' : Document) :
  rootAttributes doc = rootAttributes doc' →
  rootChildren doc = rootChildren doc' → doc = doc'.
Proof. destruct doc, doc'. cbn. by intros -> ->. Qed.

(** Applying the same pair twice is applying it once. *)
Lemma applyTheme_twice (scheme : ThemeScheme) (invert : bool) (doc : Document) :
  applyTheme scheme invert (applyTheme scheme invert doc)
  = applyTheme scheme invert doc.
Proof.
  assert (ensureStyleElement (applyTheme scheme invert doc)
          = applyTheme scheme invert doc) as Hkeep.
  { unfold ensureStyleElement at 1, getElementById.
    rewrite applyTheme_children.
    pose proof (ensureStyleElement_found doc).
    by destruct (findByIdIn STYLE_ID (rootChildren (ensureStyleElement doc))). }
  apply document_eq.
  - rewrite (applyTheme_attributes scheme invert (applyTheme scheme invert doc)).
    rewrite applyTheme_attributes.
    apply map_eq. intros name. rewrite !lookup_insert.
    by repeat case_decide.
  - rewrite (applyTheme_children scheme invert (applyTheme scheme invert doc)).
    by rewrite Hkeep.
Qed.

Lemma clearTheme_attributes (doc : Document) :
  rootAttributes (clearTheme doc)
  = delete INVERT_ATTR (delete SCHEME_ATTR (rootAttributes doc)).
Proof.
  unfold clearTheme. by destruct (getElementById STYLE_ID _).
Qed.

Lemma clearTheme_count (doc : Document) :
  (countIdIn STYLE_ID (rootChildren (clearTheme doc))
   ≤ Nat.pred (countIdIn STYLE_ID (rootChildren doc)))%nat.
Proof.
  unfold clearTheme, getElementById, removeById, removeRootAttribute.
  cbn [rootChildren rootAttributes].
  destruct (findByIdIn STYLE_ID (rootChildren doc)) as [found|] eqn:Hfind.
  - cbn [rootChildren]. apply DomFacts.removeFirstIn_count.
  - apply DomFacts.findByIdIn_None in Hfind. cbn [rootChildren]. lia.
Qed.

(** Neither edit lets the number of elements with the managed id exceed
    one, or what it was. *)
Lemma runEdit_count (doc : Document) (e : Edit) :
  (countIdIn STYLE_ID (rootChildren (runEdit doc e))
   ≤ Nat.max 1 (countIdIn STYLE_ID (rootChildren doc)))%nat.
Proof.
  destruct e as [scheme invert|]; cbn [runEdit].
  - by rewrite applyTheme_count.
  - pose proof (clearTheme_count doc). lia.
Qed.

Lemma runEdits_count (edits : list Edit) (doc : Document) :
  (countIdIn STYLE_ID (rootChildren (runEdits edits doc))
   ≤ Nat.max 1 (countIdIn STYLE_ID (rootChildren doc)))%nat.
Proof.
  revert doc. induction edits as [|e rest IH]; intros doc.
  - cbn. lia.
  - change (runEdits (e :: rest) doc) with (runEdits rest (runEdit doc e)).
    pose proof (IH (runEdit doc e)). pose proof (runEdit_count doc e). lia.
Qed.

(** The pass clears the theme on an empty hostname, and on a hostname
    without an override that is not a property name of [Object.prototype]. *)
Lemma applyThemeFromSettings_inactive (settings : ThemeSettings)
    (env : Env) (st : State) :
  pageHostname env = ""
  ∨ (siteOverrides settings !! pageHostname env = None
     ∧ inheritedName (pageHostname env) = false) →
  applyThemeFromSettings settings env st
  = mkState (baselineIsDark st) (clearTheme (document st)).
Proof.
  intros Hinactive. unfold applyThemeFromSettings. cbv zeta.
  destruct (String.eqb_spec (pageHostname env) "") as [_|Hne]; [reflexivity|].
  destruct Hinactive as [Hempty | [Hnone Hname]]; [done|].
  by rewrite ThemeFacts.readOverride_undefined.
Qed.

(** On a hostname without an override that is such a name, the pass
    applies the inherited member as if it were a scheme. *)
Lemma applyThemeFromSettings_inherited (settings : ThemeSettings)
    (env : Env) (st : State) :
  siteOverrides settings !! pageHostname env = None →
  inheritedName (pageHostname env) = true →
  applyThemeFromSettings settings env st
  = mkState (baselineIsDark st)
      (applyThemeText (inheritedText (pageHostname env))
         (default (computePageIsDark (computedStyles env)) (baselineIsDark st))
         (document st)).
Proof.
  intros Hnone Hname. unfold applyThemeFromSettings. cbv zeta.
  destruct (String.eqb_spec (pageHostname env) "") as [Hempty|_].
  - rewrite Hempty in Hname. discriminate Hname.
  - rewrite ThemeFacts.readOverride_inherited by done. by destruct (baselineIsDark st).
Qed.

Lemma applyThemeFromSettings_active (settings : ThemeSettings)
    (env : Env) (st : State) (mode : ThemeMode) :
  pageHostname env ≠ "" →
  siteOverrides settings !! pageHostname env = Some mode →
  applyThemeFromSettings settings env st
  = mkState (baselineIsDark st)
      (applyTheme (resolveScheme (prefersDarkMatches env) mode)
         (shouldInvert (resolveScheme (prefersDarkMatches env) mode)
            (default (computePageIsDark (computedStyles env)) (baselineIsDark st)))
         (document st)).
Proof.
  intros Hne Hmode. unfold applyThemeFromSettings. cbv zeta.
  destruct (String.eqb_spec (pageHostname env) "") as [Hempty|_]; [done|].
  rewrite (ThemeFacts.readOverride_own _ _ _ Hmode). by destruct (baselineIsDark st).
Qed.

(** The handlers always reach the resolution pass: what the normaliser
    returns reads back at type [ThemeSettings]. *)
Lemma applyFromStorage_runs_pass (storage : gmap string JsValue)
    (env : Env) (st : State) :
  ∃ settings,
    settingsOfJs (normalizeSettings (default JUndefined (storage !! STORAGE_KEY)))
    = Some settings
    ∧ applyFromStorage storage env st = applyThemeFromSettings settings env st.
Proof.
  destruct (ThemeFacts.normalizeSettings_typed
              (default JUndefined (storage !! STORAGE_KEY))) as [settings Hsettings].
  exists settings. split; [exact Hsettings|].
  unfold applyFromStorage. cbv zeta. by rewrite Hsettings.
Qed.

Lemma onStorageChanged_runs_pass (newValue : JsValue) (env : Env) (st : State) :
  ∃ settings,
    settingsOfJs (normalizeSettings newValue) = Some settings
    ∧ onStorageChanged (Some newValue) "local" env st
      = applyThemeFromSettings settings env st.
Proof.
  destruct (ThemeFacts.normalizeSettings_typed newValue) as [settings Hsettings].
  exists settings. split; [exact Hsettings|].
  unfold onStorageChanged. cbn [String.eqb Ascii.eqb Bool.eqb negb].
  by rewrite Hsettings.
Qed.

(** A white body is not dark; a body of [rgb(10, 10, 10)] is. *)
Lemma computePageIsDark_white_body (rootValue : string) :
  computePageIsDark (mkComputedStyles (Some "rgb(255, 255, 255)") rootValue) = false.
Proof.
  destruct (computePageIsDark _) eqn:Hdark; [|reflexivity].
  apply ContentFacts.computePageIsDark_chosen in Hdark.
  change (chosenBackground _) with white in Hdark.
  rewrite ContentFacts.relativeLuminance_white in Hdark. lra.
Qed.

Lemma computePageIsDark_dark_body (rootValue : string) :
  computePageIsDark (mkComputedStyles (Some "rgb(10, 10, 10)") rootValue) = true.
Proof.
  apply ContentFacts.computePageIsDark_chosen.
  change (chosenBackground _) with (rgb 10 10 10 (Num 1)).
  rewrite ContentFacts.relativeLuminance_rgb, ContentFacts.linearize_low; lra.
Qed.

(** The settings of the scenarios: follow the system by default, dark on
    example.com. *)
Lemma scenario_settings :
  settingsOfJs
    (normalizeSettings
       (JObject {[ "defaultMode" := JString "system";
                   "siteOverrides" := JObject {[ "example.com" := JString "dark" ]} ]}))
  = Some (mkThemeSettings System {[ "example.com" := Dark ]}).
Proof.
  rewrite <- (ThemeFacts.settingsOfJs_normalizeSettings_settingsToJs
                (mkThemeSettings System {[ "example.com" := Dark ]}))
    by reflexivity.
  unfold settingsToJs. cbn [defaultMode siteOverrides modeToJs].
  by rewrite map_fmap_singleton.
Qed.

(** C1: [shouldInvert] is true exactly when the target scheme is dark and
    the page is not, or the target scheme is light and the page is dark; it
    realises the four-line truth table. *)
Theorem shouldInvert_truth_table :
  (∀ scheme pageIsDark,
     shouldInvert scheme pageIsDark = true
     ↔ (scheme = SchemeDark ∧ pageIsDark = false)
       ∨ (scheme = SchemeLight ∧ pageIsDark = true))
  ∧ shouldInvert SchemeDark false = true
  ∧ shouldInvert SchemeDark true = false
  ∧ shouldInvert SchemeLight true = true
  ∧ shouldInvert SchemeLight false = false.
Proof.
  split; [|by repeat split].
  intros [|] [|]; cbn; split; intros H; try done; try (by left); try (by right);
    by destruct H as [[? ?]|[? ?]].
Qed.

(** C4: [resolveScheme] sends system to dark when the OS dark-preference
    query matches and to light otherwise, and light and dark to themselves.
    With stored settings of default system and dark on example.com, the OS
    preferring light and a white page background, a first run on
    example.com samples the page as not dark, resolves the scheme dark and
    decides to invert, and writes both to the root element. *)
Theorem resolveScheme_spec :
  (∀ prefersDark,
     resolveScheme prefersDark System = if prefersDark then SchemeDark else SchemeLight)
  ∧ (∀ prefersDark, resolveScheme prefersDark Light = SchemeLight)
  ∧ (∀ prefersDark, resolveScheme prefersDark Dark = SchemeDark)
  ∧ (∀ (doc : Document) (rootValue : string),
       let raw :=
         JObject {[ "defaultMode" := JString "system";
                    "siteOverrides" := JObject {[ "example.com" := JString "dark" ]} ]} in
       let styles := mkComputedStyles (Some "rgb(255, 255, 255)") rootValue in
       let env := mkEnv "example.com" "example.com" false styles in
       let st := start {[ STORAGE_KEY := raw ]} env (mkState None doc) in
       resolveScheme (prefersDarkMatches env) Dark = SchemeDark
       ∧ shouldInvert SchemeDark (computePageIsDark styles) = true
       ∧ baselineIsDark st = Some false
       ∧ rootAttributes (document st) !! SCHEME_ATTR = Some "dark"
       ∧ rootAttributes (document st) !! INVERT_ATTR = Some "true").
Proof.
  split; [by intros [|]|]. split; [done|]. split; [done|].
  intros doc rootValue. cbv zeta.
  unfold start, applyFromStorage. cbn [baselineIsDark document].
  rewrite lookup_singleton_eq.
  cbn [from_option Datatypes.id computedStyles prefersDarkMatches].
  rewrite scenario_settings, computePageIsDark_white_body.
  rewrite (applyThemeFromSettings_active _ _ _ Dark); [|done|by apply lookup_singleton_eq].
  cbn [baselineIsDark document from_option Datatypes.id prefersDarkMatches
       resolveScheme shouldInvert negb].
  rewrite applyTheme_attributes.
  repeat split.
  - rewrite lookup_insert_ne by (apply not_eq_sym, attrs_distinct).
    by rewrite lookup_insert_eq.
  - by rewrite lookup_insert_eq.
Qed.

(** The second scenario: on a page whose background is [rgb(10, 10, 10)]
    the scheme is dark again and nothing is inverted. *)
Example dark_page_scenario (doc : Document) (rootValue : string) :
  let styles := mkComputedStyles (Some "rgb(10, 10, 10)") rootValue in
  let env := mkEnv "example.com" "example.com" false styles in
  let st := applyThemeFromSettings
              (mkThemeSettings System {[ "example.com" := Dark ]}) env
              (mkState (Some (computePageIsDark styles)) doc) in
  rootAttributes (document st) !! SCHEME_ATTR = Some "dark"
  ∧ rootAttributes (document st) !! INVERT_ATTR = Some "false".
Proof.
  cbv zeta. rewrite computePageIsDark_dark_body.
  rewrite (applyThemeFromSettings_active _ _ _ Dark); [|done|by apply lookup_singleton_eq].
  cbn [baselineIsDark document from_option Datatypes.id prefersDarkMatches
       resolveScheme shouldInvert negb].
  rewrite applyTheme_attributes. split.
  - rewrite lookup_insert_ne by (apply not_eq_sym, attrs_distinct).
    by rewrite lookup_insert_eq.
  - by rewrite lookup_insert_eq.
Qed.

(** A resolution pass whose hostname is empty, or has no entry in
    [siteOverrides] and is not a property name of [Object.prototype],
    clears the theme whatever was applied before: neither managed
    attribute is left on the root, the first element with the managed id
    is detached when there is one (so none is left when there was at most
    one), and the brightness sample is kept. *)
Lemma inactive_pass_clears (settings : ThemeSettings) (env : Env) (st : State) :
  pageHostname env = ""
  ∨ (siteOverrides settings !! pageHostname env = None
     ∧ inheritedName (pageHostname env) = false) →
  let st' := applyThemeFromSettings settings env st in
  rootAttributes (document st') !! SCHEME_ATTR = None
  ∧ rootAttributes (document st') !! INVERT_ATTR = None
  ∧ (countIdIn STYLE_ID (rootChildren (document st'))
     ≤ Nat.pred (countIdIn STYLE_ID (rootChildren (document st))))%nat
  ∧ ((countIdIn STYLE_ID (rootChildren (document st)) ≤ 1)%nat →
     getElementById STYLE_ID (document st') = None)
  ∧ baselineIsDark st' = baselineIsDark st.
Proof.
  intros Hinactive. cbv zeta.
  rewrite applyThemeFromSettings_inactive by done. cbn [document baselineIsDark].
  pose proof (clearTheme_count (document st)) as Hcount.
  rewrite clearTheme_attributes. repeat split.
  - rewrite lookup_delete_ne by (apply not_eq_sym, attrs_distinct).
    apply lookup_delete_eq.
  - apply lookup_delete_eq.
  - exact Hcount.
  - intros Hone. apply DomFacts.findByIdIn_None. lia.
Qed.

(** The lemma on a page where the theme is on (both attributes and the
    stylesheet are there) and whose site has no override any more. *)
Example inactive_pass_clears_example :
  let themed :=
    applyTheme SchemeDark true
      (mkDocument ∅ [El "head" "" "" []; El "body" "" "" []]) in
  let env := mkEnv "example.com" "example.com" false
               (mkComputedStyles (Some "rgb(255, 255, 255)") "rgba(0, 0, 0, 0)") in
  let st' := applyThemeFromSettings (mkThemeSettings System ∅) env
               (mkState (Some false) themed) in
  rootAttributes (document st') !! SCHEME_ATTR = None
  ∧ rootAttributes (document st') !! INVERT_ATTR = None
  ∧ getElementById STYLE_ID (document st') = None.
Proof.
  cbv zeta.
  pose proof (inactive_pass_clears (mkThemeSettings System ∅)
                (mkEnv "example.com" "example.com" false
                   (mkComputedStyles (Some "rgb(255, 255, 255)") "rgba(0, 0, 0, 0)"))
                (mkState (Some false)
                   (applyTheme SchemeDark true
                      (mkDocument ∅ [El "head" "" "" []; El "body" "" "" []])))
                (or_intror (conj (lookup_empty _) eq_refl))) as Hclear.
  cbv zeta in Hclear.
  destruct Hclear as (Hscheme & Hinvert & _ & Hstyle & _).
  split; [exact Hscheme|]. split; [exact Hinvert|].
  apply Hstyle. cbn [document]. rewrite applyTheme_count. cbn. lia.
Qed.

(** C7, where the code departs from it: on an untouched page whose
    hostname is [constructor], with settings that hold no override at all,
    the pass does not leave the page inactive.  The look-up
    [settings.siteOverrides[hostname]] finds the function that every
    object inherits under that name; it is truthy, so [clearTheme] is
    skipped and [applyTheme] runs with it: the scheme attribute receives
    the text of the function, the invert attribute the page's brightness,
    and the stylesheet is inserted. *)
Theorem inherited_hostname_not_cleared :
  siteOverrides (mkThemeSettings System ∅) !! "constructor" = None
  ∧ pageHostname
      (mkEnv "constructor" "constructor" false
         (mkComputedStyles (Some "rgb(255, 255, 255)") "rgba(0, 0, 0, 0)"))
    = "constructor"
  ∧ applyThemeFromSettings (mkThemeSettings System ∅)
      (mkEnv "constructor" "constructor" false
         (mkComputedStyles (Some "rgb(255, 255, 255)") "rgba(0, 0, 0, 0)"))
      (mkState (Some false) (mkDocument ∅ [El "head" "" "" []; El "body" "" "" []]))
    = mkState (Some false)
        (mkDocument
           {[ SCHEME_ATTR := inheritedText "constructor"; INVERT_ATTR := "false" ]}
           [El "head" "" "" [El "style" STYLE_ID styleText []]; El "body" "" "" []])
  ∧ inheritedText "constructor" = "function Object() { [native code] }".
Proof.
  split; [reflexivity|]. split; [reflexivity|]. split; [|reflexivity].
  rewrite applyThemeFromSettings_inherited by reflexivity.
  cbn [baselineIsDark document from_option Datatypes.id pageHostname
       locationHostname String.eqb Ascii.eqb Bool.eqb negb].
  apply (f_equal (mkState (Some false))).
  apply document_eq.
  - rewrite applyThemeText_attributes. cbn [rootAttributes].
    apply map_eq. intros name. rewrite !lookup_insert, lookup_singleton, lookup_empty.
    repeat case_decide; subst; try done.
  - reflexivity.
Qed.

(** The same on a page whose hostname is [__proto__], after the popup has
    picked a mode there: the override is lost in the normaliser, and the
    look-up finds the prototype object. *)
Example proto_hostname_scheme :
  rootAttributes
    (document
       (onStorageChanged
          (Some (settingsToJs (mkThemeSettings Dark {[ "__proto__" := Dark ]})))
          "local"
          (mkEnv "__proto__" "__proto__" false
             (mkComputedStyles (Some "rgb(255, 255, 255)") "rgba(0, 0, 0, 0)"))
          (mkState (Some false) (mkDocument ∅ [El "head" "" "" []; El "body" "" "" []]))))
  !! SCHEME_ATTR
  = Some "[object Object]".
Proof.
  destruct (onStorageChanged_runs_pass
              (settingsToJs (mkThemeSettings Dark {[ "__proto__" := Dark ]}))
              (mkEnv "__proto__" "__proto__" false
                 (mkComputedStyles (Some "rgb(255, 255, 255)") "rgba(0, 0, 0, 0)"))
              (mkState (Some false)
                 (mkDocument ∅ [El "head" "" "" []; El "body" "" "" []])))
    as (settings & Hsettings & ->).
  rewrite ThemeFacts.settingsOfJs_normalizeSettings_delete in Hsettings.
  injection Hsettings as <-.
  rewrite applyThemeFromSettings_inherited; [|apply lookup_delete_eq|reflexivity].
  cbn [document]. rewrite applyThemeText_attributes.
  rewrite lookup_insert_ne by (apply not_eq_sym, attrs_distinct).
  by rewrite lookup_insert_eq.
Qed.

(** C8: starting from a document with at most one element carrying the
    managed id (none, on a page the script has not touched), any sequence
    of [applyTheme] and [clearTheme] leaves at most one; applying a pair
    [scheme], [invert] then leaves exactly one, and applying the same pair
    again changes nothing in the document. *)
Theorem applyTheme_idempotent_singleton (edits : list Edit) (doc : Document) :
  (countIdIn STYLE_ID (rootChildren doc) ≤ 1)%nat →
  let doc' := runEdits edits doc in
  (countIdIn STYLE_ID (rootChildren doc') ≤ 1)%nat
  ∧ ∀ scheme invert,
      countIdIn STYLE_ID (rootChildren (applyTheme scheme invert doc')) = 1%nat
      ∧ applyTheme scheme invert (applyTheme scheme invert doc')
        = applyTheme scheme invert doc'.
Proof.
  intros Hone. cbv zeta.
  pose proof (runEdits_count edits doc) as Hcount.
  split; [lia|]. intros scheme invert. split.
  - rewrite applyTheme_count. lia.
  - apply applyTheme_twice.
Qed.

(** The theorem on a fresh page, through an apply, a clear and two equal
    applies. *)
Lemma applyTheme_idempotent_singleton_witness :
  let doc := mkDocument ∅ [El "head" "" "" []; El "body" "" "" []] in
  let edits := [EditApply SchemeDark true; EditClear;
                EditApply SchemeLight false; EditApply SchemeLight false] in
  (countIdIn STYLE_ID (rootChildren doc) ≤ 1)%nat
  ∧ (countIdIn STYLE_ID (rootChildren (runEdits edits doc)) ≤ 1)%nat.
Proof.
  cbv zeta.
  assert (countIdIn STYLE_ID
            (rootChildren (mkDocument ∅ [El "head" "" "" []; El "body" "" "" []])) ≤ 1)%nat
    as Hfresh by (cbn; lia).
  split; [exact Hfresh|].
  exact (proj1 (applyTheme_idempotent_singleton
                  [EditApply SchemeDark true; EditClear;
                   EditApply SchemeLight false; EditApply SchemeLight false]
                  (mkDocument ∅ [El "head" "" "" []; El "body" "" "" []]) Hfresh)).
Defined.

End ResolverFacts.

(** * Further properties *)

(** ** The normaliser on well-formed and on extended inputs *)

Module ThemeProperties.
Import Js Theme.

(** X1: Settings round trip: the run-time form of a settings value that has
    no override under the key [__proto__] is a fixed point of the
    normaliser and reads back as the settings it came from. *)
Theorem settings_round_trip (settings : ThemeSettings) :
  siteOverrides settings !! "__proto__" = None →
  normalizeSettings (settingsToJs settings) = settingsToJs settings
  ∧ settingsOfJs (normalizeSettings (settingsToJs settings)) = Some settings.
Proof.
  intros Hproto.
  assert (normalizeSettings (settingsToJs settings) = settingsToJs settings) as Hfixed.
  { destruct settings as [mode overrides]. unfold settingsToJs.
    cbn [defaultMode siteOverrides] in *.
    apply ThemeFacts.normalizeSettings_fixed.
    - apply ThemeFacts.isThemeMode_modeToJs.
    - apply ThemeFacts.settingsToJs_valid.
    - by rewrite lookup_fmap, Hproto. }
  split; [exact Hfixed|].
  rewrite Hfixed. apply ThemeFacts.settingsOfJs_settingsToJs.
Qed.

Lemma settings_round_trip_witness :
  settingsOfJs
    (normalizeSettings
       (settingsToJs (mkThemeSettings Dark {[ "docs.example.com" := Light ]})))
  = Some (mkThemeSettings Dark {[ "docs.example.com" := Light ]}).
Proof.
  exact (proj2 (settings_round_trip
                  (mkThemeSettings Dark {[ "docs.example.com" := Light ]}) eq_refl)).
Defined.

(** X2: Fields other than [defaultMode] and [siteOverrides] are ignored: adding,
    changing or removing one does not change the result. *)
Theorem normalizeSettings_ignores_other_fields
    (props : gmap string JsValue) (key : string) (value : JsValue) :
  key ≠ "defaultMode" → key ≠ "siteOverrides" →
  normalizeSettings (JObject (<[key := value]> props)) = normalizeSettings (JObject props)
  ∧ normalizeSettings (JObject (delete key props)) = normalizeSettings (JObject props).
Proof.
  intros Hmode Hoverrides. rewrite !ThemeFacts.normalizeSettings_unfold.
  unfold normalizeSettingsCases, repairedMode, readOverrides.
  by rewrite !lookup_insert_ne, !lookup_delete_ne by done.
Qed.

Lemma normalizeSettings_ignores_other_fields_witness :
  normalizeSettings
    (JObject (<["version" := JNumber (Num 2)]> {[ "defaultMode" := JString "dark" ]}))
  = normalizeSettings (JObject {[ "defaultMode" := JString "dark" ]}).
Proof.
  exact (proj1 (normalizeSettings_ignores_other_fields
                  {[ "defaultMode" := JString "dark" ]} "version" (JNumber (Num 2))
                  ltac:(discriminate) ltac:(discriminate))).
Defined.

(** X3: The two fields are repaired independently: whatever stands under
    [defaultMode] has no effect on the resulting [siteOverrides], and
    whatever stands under [siteOverrides] none on the resulting
    [defaultMode]. *)
Theorem normalizeSettings_fields_independent
    (props : gmap string JsValue) (value : JsValue) :
  getProp (normalizeSettings (JObject (<["defaultMode" := value]> props))) "siteOverrides"
  = getProp (normalizeSettings (JObject props)) "siteOverrides"
  ∧ getProp (normalizeSettings (JObject (<["siteOverrides" := value]> props))) "defaultMode"
    = getProp (normalizeSettings (JObject props)) "defaultMode".
Proof.
  rewrite !ThemeFacts.normalizeSettings_unfold.
  unfold normalizeSettingsCases, repairedMode, readOverrides, getProp.
  split.
  - rewrite !(lookup_insert_ne _ "defaultMode" "siteOverrides") by done.
    by rewrite !lookup_singleton_eq.
  - rewrite !lookup_insert_eq.
    by rewrite (lookup_insert_ne props "siteOverrides" "defaultMode") by done.
Qed.

End ThemeProperties.

(** ** The popup: the site switch, what is shown, and incoming changes *)

Module PopupProperties.
Import Js Theme Popup.

Lemma siteMode_active (st : PopupState) (host : string) :
  activeHost st = Some host → host ≠ "" →
  siteMode st = readOverride (siteOverrides (settings st)) host.
Proof.
  intros Hhost Hne. unfold siteMode. rewrite Hhost.
  by rewrite (PopupFacts.truthyHost_Some host Hne).
Qed.

Lemma setSiteOverride_active (enabled : bool) (st : PopupState)
    (storage : gmap string JsValue) (host : string) :
  activeHost st = Some host → host ≠ "" →
  setSiteOverride enabled st storage
  = updateSettings
      (mkThemeSettings (defaultMode (settings st))
         (if enabled
          then match readOverride (siteOverrides (settings st)) host with
               | ReadOwn mode => <[host := mode]> (siteOverrides (settings st))
               | ReadUndefined =>
                   <[host := defaultMode (settings st)]> (siteOverrides (settings st))
               | ReadInherited _ => siteOverrides (settings st)
               end
          else delete host (siteOverrides (settings st))))
      st storage.
Proof.
  intros Hhost Hne. unfold setSiteOverride.
  rewrite (siteMode_active st host Hhost Hne), Hhost.
  by rewrite (PopupFacts.truthyHost_Some host Hne).
Qed.

(** Switching on, where the host has an override or is not a property name
    of [Object.prototype]. *)
Lemma setSiteOverride_on_typed (st : PopupState) (storage : gmap string JsValue)
    (host : string) :
  activeHost st = Some host → host ≠ "" →
  (siteOverrides (settings st) !! host = None → inheritedName host = false) →
  setSiteOverride true st storage
  = updateSettings
      (mkThemeSettings (defaultMode (settings st))
         (<[host := default (defaultMode (settings st))
                      (siteOverrides (settings st) !! host)]>
            (siteOverrides (settings st))))
      st storage.
Proof.
  intros Hhost Hne Hname.
  rewrite (setSiteOverride_active true st storage host Hhost Hne).
  unfold readOverride.
  destruct (siteOverrides (settings st) !! host) as [mode|]; [reflexivity|].
  by rewrite Hname.
Qed.

(** X4: Switching the site off removes the override of the active host and
    nothing else: the other overrides and the default mode stay, and the
    same value goes to the store. *)
Theorem setSiteOverride_off (st : PopupState) (storage : gmap string JsValue)
    (host : string) :
  activeHost st = Some host → host ≠ "" →
  let next := settings (setSiteOverride false st storage).1 in
  siteOverrides next !! host = None
  ∧ (∀ other, other ≠ host →
       siteOverrides next !! other = siteOverrides (settings st) !! other)
  ∧ defaultMode next = defaultMode (settings st)
  ∧ (setSiteOverride false st storage).2 !! STORAGE_KEY = Some (settingsToJs next).
Proof.
  intros Hhost Hne. cbv zeta.
  rewrite (setSiteOverride_active false st storage host Hhost Hne).
  unfold updateSettings. cbn [fst snd settings siteOverrides defaultMode].
  repeat split.
  - apply lookup_delete_eq.
  - intros other Hother. by apply lookup_delete_ne.
  - apply lookup_insert_eq.
Qed.

Lemma setSiteOverride_off_witness :
  let st := mkPopupState
              (mkThemeSettings Dark {[ "docs.example.com" := Light ]})
              (Some "docs.example.com") true in
  siteOverrides (settings (setSiteOverride false st ∅).1) !! "docs.example.com" = None.
Proof.
  cbv zeta.
  exact (proj1 (setSiteOverride_off
                  (mkPopupState
                     (mkThemeSettings Dark {[ "docs.example.com" := Light ]})
                     (Some "docs.example.com") true)
                  ∅ "docs.example.com" eq_refl ltac:(discriminate))).
Defined.

(** X5: On a host that is not a property name of [Object.prototype],
    switching the site on keeps the override the host already has, and
    otherwise gives it the default mode; the other overrides and the default
    mode stay.  On a host that is already on, the settings do not change. *)
Theorem setSiteOverride_on (st : PopupState) (storage : gmap string JsValue)
    (host : string) :
  activeHost st = Some host → host ≠ "" → inheritedName host = false →
  let next := settings (setSiteOverride true st storage).1 in
  siteOverrides next !! host
  = Some (default (defaultMode (settings st)) (siteOverrides (settings st) !! host))
  ∧ (∀ other, other ≠ host →
       siteOverrides next !! other = siteOverrides (settings st) !! other)
  ∧ defaultMode next = defaultMode (settings st)
  ∧ (is_Some (siteOverrides (settings st) !! host) → next = settings st).
Proof.
  intros Hhost Hne Hname. cbv zeta.
  rewrite (setSiteOverride_on_typed st storage host Hhost Hne) by done.
  unfold updateSettings. cbn [fst snd settings siteOverrides defaultMode].
  repeat split.
  - apply lookup_insert_eq.
  - intros other Hother. by apply lookup_insert_ne.
  - intros [mode Hmode]. rewrite Hmode. cbn.
    rewrite insert_id by done. by destruct (settings st).
Qed.

Lemma setSiteOverride_on_witness :
  let st := mkPopupState (mkThemeSettings Dark ∅) (Some "docs.example.com") true in
  siteOverrides (settings (setSiteOverride true st ∅).1) !! "docs.example.com"
  = Some Dark.
Proof.
  cbv zeta.
  exact (proj1 (setSiteOverride_on
                  (mkPopupState (mkThemeSettings Dark ∅) (Some "docs.example.com") true)
                  ∅ "docs.example.com" eq_refl ltac:(discriminate) eq_refl)).
Defined.

(** X6: Switching a site on and off again, when it had no override, restores
    the settings. *)
Theorem setSiteOverride_on_off (st : PopupState) (storage : gmap string JsValue)
    (host : string) :
  activeHost st = Some host → host ≠ "" →
  siteOverrides (settings st) !! host = None →
  let on := setSiteOverride true st storage in
  settings (setSiteOverride false on.1 on.2).1 = settings st.
Proof.
  intros Hhost Hne Hfresh. cbv zeta.
  rewrite (setSiteOverride_active true st storage host Hhost Hne).
  unfold updateSettings. cbn [fst snd].
  rewrite (setSiteOverride_active false _ _ host); [|exact Hhost|exact Hne].
  unfold updateSettings, readOverride.
  cbn [fst settings siteOverrides defaultMode]. rewrite Hfresh.
  destruct (inheritedName host);
    rewrite ?delete_insert_eq, delete_id by done; by destruct (settings st).
Qed.

Lemma setSiteOverride_on_off_witness :
  let st := mkPopupState (mkThemeSettings Dark {[ "other.org" := Light ]})
              (Some "docs.example.com") true in
  let on := setSiteOverride true st ∅ in
  settings (setSiteOverride false on.1 on.2).1 = settings st.
Proof.
  cbv zeta.
  exact (setSiteOverride_on_off
           (mkPopupState (mkThemeSettings Dark {[ "other.org" := Light ]})
              (Some "docs.example.com") true)
           ∅ "docs.example.com" eq_refl ltac:(discriminate) eq_refl).
Defined.

Lemma MODE_LABELS_not_off (mode : ThemeMode) : MODE_LABELS mode ≠ "Off".
Proof. by destruct mode. Qed.

Lemma truthyHost_siteMode (st : PopupState) :
  siteMode st ≠ ReadUndefined → truthyHost (activeHost st) = true.
Proof.
  unfold siteMode. destruct (activeHost st) as [host|]; [|done].
  by destruct (truthyHost (Some host)).
Qed.

Lemma override_shown (st : PopupState) (mode : ThemeMode) :
  siteMode st = ReadOwn mode →
  pillLabel st = MODE_LABELS mode
  ∧ isSiteEnabled st = true
  ∧ ∀ m, segmentPressed st m = true ↔ m = mode.
Proof.
  intros Hmode.
  assert (truthyHost (activeHost st) = true) as Hhost
    by (apply truthyHost_siteMode; by rewrite Hmode).
  unfold pillLabel, isSiteEnabled, segmentPressed. rewrite Hmode, Hhost.
  cbn [andb truthyRead].
  repeat split; try by destruct mode, m.
Qed.

(** X7: The pill reads Off exactly when the look-up of the active host
    finds nothing: there is no active page, or its host has no override and
    is not a property name of [Object.prototype].  When the look-up finds
    an override the pill carries its label and the one pressed segment is
    that of the override; when it finds nothing no segment is pressed. *)
Theorem pillLabel_off_iff (st : PopupState) :
  (pillLabel st = "Off" ↔ siteMode st = ReadUndefined)
  ∧ (∀ host, activeHost st = Some host → host ≠ "" →
       (siteMode st = ReadUndefined
        ↔ siteOverrides (settings st) !! host = None ∧ inheritedName host = false))
  ∧ (∀ mode, siteMode st = ReadOwn mode →
       pillLabel st = MODE_LABELS mode
       ∧ isSiteEnabled st = true
       ∧ ∀ m, segmentPressed st m = true ↔ m = mode)
  ∧ (siteMode st = ReadUndefined → ∀ m, segmentPressed st m = false).
Proof.
  split; [|split; [|split; [apply override_shown|]]].
  - destruct (siteMode st) as [mode|name|] eqn:Hmode.
    + destruct (override_shown st mode Hmode) as [-> _].
      split; [|done]. intros Hoff. by apply MODE_LABELS_not_off in Hoff.
    + assert (truthyHost (activeHost st) = true) as Hhost
        by (apply truthyHost_siteMode; by rewrite Hmode).
      unfold pillLabel, isSiteEnabled. rewrite Hmode, Hhost. by cbn.
    + unfold pillLabel. rewrite Hmode. split; [done|]. by destruct (isSiteEnabled st).
  - intros host Hhost Hne. rewrite (siteMode_active st host Hhost Hne).
    unfold readOverride.
    destruct (siteOverrides (settings st) !! host) as [mode|];
      [|destruct (inheritedName host)]; split; try done; by intros [? ?].
  - intros Hnone m. unfold segmentPressed. by rewrite Hnone.
Qed.

(** X8: After a mode is picked on an active page the popup shows it: the pill
    and the footer carry its label and its segment is the pressed one. *)
Theorem setMode_shown (mode : ThemeMode) (st : PopupState)
    (storage : gmap string JsValue) (host : string) :
  activeHost st = Some host → host ≠ "" →
  let st' := (setMode mode st storage).1 in
  pillLabel st' = MODE_LABELS mode
  ∧ isSiteEnabled st' = true
  ∧ (∀ m, segmentPressed st' m = true ↔ m = mode)
  ∧ footerText st' = "Preferred mode: " +:+ MODE_LABELS mode.
Proof.
  intros Hhost Hne. cbv zeta.
  rewrite (PopupFacts.setMode_active mode st storage host Hhost Hne).
  unfold updateSettings. cbn [fst].
  set (st' := mkPopupState _ _ _).
  assert (siteMode st' = ReadOwn mode) as Hmode.
  { rewrite (siteMode_active st' host) by done.
    apply ThemeFacts.readOverride_own, lookup_insert_eq. }
  destruct (override_shown st' mode Hmode) as (Hpill & Henabled & Hpressed).
  repeat split; try done; by apply Hpressed.
Qed.

Lemma setMode_shown_witness :
  pillLabel (setMode Dark
               (mkPopupState (mkThemeSettings System ∅) (Some "docs.example.com") true)
               ∅).1
  = "Dark".
Proof.
  exact (proj1 (setMode_shown Dark
                  (mkPopupState (mkThemeSettings System ∅) (Some "docs.example.com") true)
                  ∅ "docs.example.com" eq_refl ltac:(discriminate))).
Defined.

Lemma setMode_stored (mode : ThemeMode) (st : PopupState)
    (storage : gmap string JsValue) :
  (setMode mode st storage).2 !! STORAGE_KEY
  = Some (settingsToJs (settings (setMode mode st storage).1)).
Proof.
  unfold setMode, updateSettings.
  destruct (activeHost st) as [host|]; [destruct (negb _)|];
    cbn [fst snd settings]; apply lookup_insert_eq.
Qed.




(** X10: With nothing stored under the key, or a value that is not an object
    there, a mounted popup loads the default settings and becomes ready; an
    unmounted one is left alone. *)
Theorem loadSettings_defaults (storage : gmap string JsValue) (st : PopupState) :
  isRecord (default JUndefined (storage !! STORAGE_KEY)) = false →
  loadSettings true storage st
  = mkPopupState (mkThemeSettings System ∅) (activeHost st) true
  ∧ loadSettings false storage st = st.
Proof.
  intros Hmalformed. split; [|reflexivity].
  unfold loadSettings, normalizeSettings. cbv zeta. by rewrite Hmalformed.
Qed.

Lemma loadSettings_defaults_witness :
  loadSettings true ∅ (mkPopupState (mkThemeSettings Dark ∅) None false)
  = mkPopupState (mkThemeSettings System ∅) None true.
Proof.
  exact (proj1 (loadSettings_defaults ∅
                  (mkPopupState (mkThemeSettings Dark ∅) None false) eq_refl)).
Defined.

End PopupProperties.

(** ** The colour parser: what it accepts and what it returns *)

Module ParserProperties.
Import Js Content.

Lemma isDigit_range (c : ascii) :
  isDigit c = true → (48 <= N_of_ascii c <= 57)%N.
Proof.
  unfold isDigit, Ascii.leb, Ascii.compare. intros Hdigit.
  apply andb_true_iff in Hdigit as [Hlow Hhigh].
  change (N_of_ascii "0") with 48%N in Hlow.
  change (N_of_ascii "9") with 57%N in Hhigh.
  destruct (N.compare_spec 48 (N_of_ascii c)), (N.compare_spec (N_of_ascii c) 57);
    try discriminate; lia.
Qed.

Lemma digitValue_range (c : ascii) :
  isDigit c = true → (0 <= digitValue c <= 9)%Z.
Proof. intros Hdigit. apply isDigit_range in Hdigit. unfold digitValue. lia. Qed.

Lemma decimalFold_nonneg (digits : list ascii) (acc : Z) :
  Forall (fun c => isDigit c = true) digits → (0 <= acc)%Z →
  (0 <= fold_left (fun acc c => 10 * acc + digitValue c) digits acc)%Z.
Proof.
  intros Hdigits. revert acc.
  induction Hdigits as [|c rest Hc _ IH]; intros acc Hacc; [exact Hacc|].
  cbn [fold_left]. apply IH. pose proof (digitValue_range c Hc). lia.
Qed.

Lemma decimalValue_nonneg (digits : list ascii) :
  Forall (fun c => isDigit c = true) digits → (0 <= decimalValue digits)%Z.
Proof. intros Hdigits. by apply decimalFold_nonneg. Qed.

(** [span] splits its input, and what it takes satisfies the predicate. *)
Lemma span_spec (p : ascii → bool) (s taken remaining : list ascii) :
  span p s = (taken, remaining) →
  s = (taken ++ remaining)%list ∧ Forall (fun c => p c = true) taken.
Proof.
  revert taken remaining. induction s as [|c rest IH]; intros taken remaining.
  - intros [= <- <-]. by split.
  - cbn [span]. destruct (p c) eqn:Hc.
    + destruct (span p rest) as [taken' remaining'].
      intros [= <- <-]. destruct (IH taken' remaining' eq_refl) as [-> Hall].
      split; [reflexivity | by constructor].
    + intros [= <- <-]. by split.
Qed.

Lemma span_app (p : ascii → bool) (taken : list ascii) (c : ascii)
    (rest : list ascii) :
  Forall (fun c => p c = true) taken → p c = false →
  span p (taken ++ c :: rest)%list = (taken, c :: rest).
Proof.
  intros Hall Hc. induction Hall as [|d taken' Hd _ IH]; cbn [span app].
  - by rewrite Hc.
  - by rewrite Hd, IH.
Qed.

Lemma span_all (p : ascii → bool) (taken : list ascii) :
  Forall (fun c => p c = true) taken → span p taken = (taken, []).
Proof.
  intros Hall. induction Hall as [|d taken' Hd _ IH]; cbn [span]; [done|].
  by rewrite Hd, IH.
Qed.

(** The pieces of the pattern, on input of the expected form. *)
Lemma matchChannel_digits (digits rest : list ascii) :
  Forall (fun c => isDigit c = true) digits → digits ≠ [] →
  matchChannel "," (digits ++ ","%char :: rest)%list = Some (digits, rest).
Proof.
  intros Hdigits Hne. unfold matchChannel.
  rewrite (span_app isDigit digits ","%char rest Hdigits eq_refl).
  by destruct digits.
Qed.

Lemma matchTail_digits (digits : list ascii) :
  Forall (fun c => isDigit c = true) digits → digits ≠ [] →
  matchTail (digits ++ [")"%char])%list = Some (digits, None).
Proof.
  intros Hdigits Hne. unfold matchTail.
  rewrite (span_app isDigit digits ")"%char [] Hdigits eq_refl).
  by destruct digits.
Qed.

Lemma matchTail_alpha (digits alpha : list ascii) :
  Forall (fun c => isDigit c = true) digits → digits ≠ [] →
  Forall (fun c => isAlphaChar c = true) alpha → alpha ≠ [] →
  matchTail (digits ++ ","%char :: alpha ++ [")"%char])%list = Some (digits, Some alpha).
Proof.
  intros Hdigits Hne Halpha Hne'. unfold matchTail.
  rewrite (span_app isDigit digits ","%char _ Hdigits eq_refl).
  destruct digits as [|d digits']; [done|].
  cbn [Ascii.eqb Bool.eqb]. cbv iota.
  rewrite (span_app isAlphaChar alpha ")"%char [] Halpha eq_refl).
  by destruct alpha.
Qed.

(** Decimal numerals: their characters are digits, none is white space, and
    their value is the number they print. *)
Lemma string_of_uint_digits (d : Decimal.uint) :
  Forall (fun c => isDigit c = true) (list_ascii_of_string (NilEmpty.string_of_uint d)).
Proof. induction d; cbn; by constructor. Qed.

Lemma string_of_uint_value (d : Decimal.uint) (acc : nat) :
  fold_left (fun acc c => (10 * acc + digitValue c)%Z)
    (list_ascii_of_string (NilEmpty.string_of_uint d)) (Z.of_nat acc)
  = Z.of_nat (Nat.of_uint_acc d acc).
Proof.
  revert acc.
  induction d as [|d IH|d IH|d IH|d IH|d IH|d IH|d IH|d IH|d IH|d IH]; intros acc;
    [reflexivity|..];
    cbn [NilEmpty.string_of_uint list_ascii_of_string fold_left Nat.of_uint_acc];
    rewrite <- IH; f_equal; rewrite Nat.tail_mul_spec; unfold digitValue; cbn; lia.
Qed.

Lemma decimalString_digits (n : nat) :
  Forall (fun c => isDigit c = true) (list_ascii_of_string (decimalString n)).
Proof. apply string_of_uint_digits. Qed.

Lemma decimalString_value (n : nat) :
  decimalValue (list_ascii_of_string (decimalString n)) = Z.of_nat n.
Proof.
  unfold decimalValue, decimalString.
  change 0%Z with (Z.of_nat 0).
  rewrite (string_of_uint_value (Nat.to_uint n) 0).
  change (Nat.of_uint_acc (Nat.to_uint n) 0) with (Nat.of_uint (Nat.to_uint n)).
  by rewrite Unsigned.of_to.
Qed.

Lemma decimalString_nonempty (n : nat) :
  list_ascii_of_string (decimalString n) ≠ [].
Proof.
  intros Hempty. pose proof (decimalString_value n) as Hvalue.
  rewrite Hempty in Hvalue. cbn in Hvalue.
  assert (n = 0%nat) as -> by lia. discriminate Hempty.
Qed.

Lemma digits_not_whitespace (digits : list ascii) :
  Forall (fun c => isDigit c = true) digits → stripWhitespace digits = digits.
Proof.
  intros Hdigits. unfold stripWhitespace.
  induction Hdigits as [|c rest Hc _ IH]; [reflexivity|].
  cbn [List.filter]. apply isDigit_range in Hc.
  assert (isWhitespace c = false) as ->.
  { unfold isWhitespace. cbv zeta.
    destruct (N.leb_spec 9 (N_of_ascii c)), (N.leb_spec (N_of_ascii c) 13),
      (N.eqb_spec (N_of_ascii c) 32), (N.eqb_spec (N_of_ascii c) 160);
      try reflexivity; lia. }
  cbn [negb]. by rewrite IH.
Qed.

Lemma list_ascii_of_string_app (s t : string) :
  list_ascii_of_string (s +:+ t)
  = (list_ascii_of_string s ++ list_ascii_of_string t)%list.
Proof. induction s as [|c s IH]; [reflexivity|]. simpl. f_equal. exact IH. Qed.

Lemma stripWhitespace_app (s t : list ascii) :
  stripWhitespace (s ++ t)%list = (stripWhitespace s ++ stripWhitespace t)%list.
Proof. apply List.filter_app. Qed.

Lemma parseColor_opaque (red green blue : nat) :
  parseColor (rgbString red green blue)
  = Some (rgb (Z.of_nat red) (Z.of_nat green) (Z.of_nat blue) (Num 1)).
Proof.
  pose proof (decimalString_digits red) as Hred.
  pose proof (decimalString_digits green) as Hgreen.
  pose proof (decimalString_digits blue) as Hblue.
  pose proof (decimalString_nonempty red) as Hred'.
  pose proof (decimalString_nonempty green) as Hgreen'.
  pose proof (decimalString_nonempty blue) as Hblue'.
  unfold parseColor, rgbString.
  rewrite !list_ascii_of_string_app, !stripWhitespace_app.
  rewrite !(digits_not_whitespace _ Hred), !(digits_not_whitespace _ Hgreen),
    !(digits_not_whitespace _ Hblue).
  change (stripWhitespace (list_ascii_of_string "rgb("))
    with ["r"; "g"; "b"; "("]%char.
  change (stripWhitespace (list_ascii_of_string ", ")) with [","%char].
  change (stripWhitespace (list_ascii_of_string ")")) with [")"%char].
  cbn [app]. unfold matchColor.
  cbn [matchPrefix eqIgnoreCase Ascii.eqb Bool.eqb andb orb]. cbv iota.
  rewrite (matchChannel_digits _ _ Hred Hred'), (matchChannel_digits _ _ Hgreen Hgreen').
  rewrite (matchTail_digits _ Hblue Hblue').
  unfold numberOfDigits, rgb. by rewrite !decimalString_value.
Qed.

Lemma parseColor_transparent (red green blue : nat) :
  parseColor (transparentString red green blue)
  = Some (rgb (Z.of_nat red) (Z.of_nat green) (Z.of_nat blue) (Num 0)).
Proof.
  pose proof (decimalString_digits red) as Hred.
  pose proof (decimalString_digits green) as Hgreen.
  pose proof (decimalString_digits blue) as Hblue.
  pose proof (decimalString_nonempty red) as Hred'.
  pose proof (decimalString_nonempty green) as Hgreen'.
  pose proof (decimalString_nonempty blue) as Hblue'.
  unfold parseColor, transparentString.
  rewrite !list_ascii_of_string_app, !stripWhitespace_app.
  rewrite !(digits_not_whitespace _ Hred), !(digits_not_whitespace _ Hgreen),
    !(digits_not_whitespace _ Hblue).
  change (stripWhitespace (list_ascii_of_string "rgba("))
    with ["r"; "g"; "b"; "a"; "("]%char.
  change (stripWhitespace (list_ascii_of_string ", ")) with [","%char].
  change (stripWhitespace (list_ascii_of_string ", 0)")) with [","; "0"; ")"]%char.
  cbn [app]. unfold matchColor.
  cbn [matchPrefix eqIgnoreCase Ascii.eqb Bool.eqb andb orb]. cbv iota.
  rewrite (matchChannel_digits _ _ Hred Hred'), (matchChannel_digits _ _ Hgreen Hgreen').
  pose proof (matchTail_alpha _ ["0"%char] Hblue Hblue'
                ltac:(by repeat constructor) ltac:(done)) as Htail.
  cbn [app] in Htail. rewrite Htail.
  unfold numberOfDigits, rgb. by rewrite !decimalString_value.
Qed.

(** X11: Round trip with the serialised form: for channel values up to
    [2^53], which a double holds exactly, [rgb(r, g, b)] parses to these
    channels with alpha 1 and [rgba(r, g, b, 0)] to these channels with
    alpha 0. *)
Theorem parseColor_rgbString (red green blue : nat) :
  (Z.of_nat red <= 2 ^ 53)%Z → (Z.of_nat green <= 2 ^ 53)%Z →
  (Z.of_nat blue <= 2 ^ 53)%Z →
  parseColor (rgbString red green blue)
  = Some (rgb (Z.of_nat red) (Z.of_nat green) (Z.of_nat blue) (Num 1))
  ∧ parseColor (transparentString red green blue)
    = Some (rgb (Z.of_nat red) (Z.of_nat green) (Z.of_nat blue) (Num 0)).
Proof.
  intros _ _ _. split; [apply parseColor_opaque | apply parseColor_transparent].
Qed.

Lemma parseColor_rgbString_witness :
  parseColor (rgbString 255 128 0) = Some (rgb 255 128 0 (Num 1)).
Proof.
  exact (proj1 (parseColor_rgbString 255 128 0
                  ltac:(by vm_compute) ltac:(by vm_compute) ltac:(by vm_compute))).
Defined.

Lemma matchChannel_Some (sep : ascii) (s digits rest : list ascii) :
  matchChannel sep s = Some (digits, rest) →
  Forall (fun c => isDigit c = true) digits.
Proof.
  unfold matchChannel. destruct (span isDigit s) as [taken remaining] eqn:Hspan.
  apply span_spec in Hspan as [_ Hall].
  destruct taken as [|d taken]; [done|]. destruct remaining as [|c remaining]; [done|].
  destruct (Ascii.eqb c sep); [|done]. by intros [= <- <-].
Qed.

Lemma matchTail_Some (s digits : list ascii) (alpha : option (list ascii)) :
  matchTail s = Some (digits, alpha) →
  Forall (fun c => isDigit c = true) digits.
Proof.
  unfold matchTail. destruct (span isDigit s) as [taken remaining] eqn:Hspan.
  apply span_spec in Hspan as [_ Hall].
  destruct taken as [|d taken]; [done|]. destruct remaining as [|c remaining]; [done|].
  destruct (Ascii.eqb c ")").
  - destruct remaining; [|done]. by intros [= <- <-].
  - destruct (Ascii.eqb c ","); [|done].
    destruct (span isAlphaChar remaining) as [[|x taken'] [|y [|z remaining']]];
      try done.
    destruct (Ascii.eqb y ")"); [|done]. by intros [= <- <-].
Qed.

(** [Number] of an alpha group is [NaN] or a non-negative rational. *)
Lemma numberOfDecimal_nonneg (alpha : list ascii) :
  numberOfDecimal alpha = NaN
  ∨ ∃ q, numberOfDecimal alpha = Num q ∧ (0 <= q)%Q.
Proof.
  unfold numberOfDecimal.
  destruct (span isDigit alpha) as [whole remaining] eqn:Hwhole.
  apply span_spec in Hwhole as [_ Hwhole].
  destruct remaining as [|dot fraction].
  - right. eexists. split; [reflexivity|]. unfold numberOfDigits.
    change 0%Q with (inject_Z 0). rewrite <- Zle_Qle. by apply decimalValue_nonneg.
  - destruct (span isDigit fraction) as [taken remaining] eqn:Hfraction.
    apply span_spec in Hfraction as [Hsplit Hfraction].
    destruct remaining as [|c remaining]; [|by left].
    rewrite app_nil_r in Hsplit. subst taken.
    destruct (whole ++ fraction)%list as [|d digits] eqn:Hdigits; [by left|].
    right. eexists. split; [reflexivity|].
    assert (Forall (fun c => isDigit c = true) (d :: digits)) as Hall.
    { rewrite <- Hdigits. by apply Forall_app. }
    apply Qle_shift_div_l.
    + change 0%Q with (inject_Z 0). rewrite <- Zlt_Qlt. lia.
    + rewrite Qmult_0_l. change 0%Q with (inject_Z 0). rewrite <- Zle_Qle.
      by apply decimalValue_nonneg.
Qed.

Lemma linearize_nonneg (x : R) : (0 <= x)%R → (0 <= linearize x)%R.
Proof.
  intros Hx. destruct (Rle_dec (x / 255) 0.03928) as [Hlow|Hhigh].
  - rewrite ContentFacts.linearize_low by done. lra.
  - apply Rnot_le_lt in Hhigh. rewrite ContentFacts.linearize_high by done.
    left. apply exp_pos.
Qed.

(** X12: What comes out of the parser, for a string of at most 308
    characters (no group of digits in it reaches the range where [Number]
    answers [Infinity]): the three channels are non-negative integers; the
    alpha is [NaN] or a non-negative rational; so the luminance of a parsed
    colour is never negative. *)
Theorem parseColor_channels (value : string) (color : Rgb) :
  (String.length value ≤ 308)%nat →
  parseColor value = Some color →
  (∃ red green blue : Z,
     (0 <= red)%Z ∧ (0 <= green)%Z ∧ (0 <= blue)%Z
     ∧ r color = inject_Z red ∧ g color = inject_Z green ∧ b color = inject_Z blue)
  ∧ (a color = NaN ∨ ∃ q, a color = Num q ∧ (0 <= q)%Q)
  ∧ (0 <= relativeLuminance color)%R.
Proof.
  intros _. unfold parseColor.
  destruct (matchColor _) as [[[[m1 m2] m3] m4]|] eqn:Hmatch; [|done].
  intros [= <-]. unfold matchColor in Hmatch.
  destruct (matchPrefix _) as [s1|]; [|done].
  destruct (matchChannel "," s1) as [[m1' s2]|] eqn:H1; [|done].
  destruct (matchChannel "," s2) as [[m2' s3]|] eqn:H2; [|done].
  destruct (matchTail s3) as [[m3' m4']|] eqn:H3; [|done].
  injection Hmatch as <- <- <- <-.
  apply matchChannel_Some, decimalValue_nonneg in H1, H2.
  apply matchTail_Some, decimalValue_nonneg in H3.
  split; [|split].
  - exists (decimalValue m1'), (decimalValue m2'), (decimalValue m3'). by repeat split.
  - cbn [a]. destruct m4' as [alpha|]; [apply numberOfDecimal_nonneg|].
    right. by exists 1%Q.
  - rewrite ContentFacts.relativeLuminance_unfold. cbn [r g b]. unfold numberOfDigits.
    rewrite !ContentFacts.Q2R_inject_Z.
    pose proof (linearize_nonneg _ (IZR_le _ _ H1)).
    pose proof (linearize_nonneg _ (IZR_le _ _ H2)).
    pose proof (linearize_nonneg _ (IZR_le _ _ H3)).
    lra.
Qed.

Lemma parseColor_channels_witness :
  ∃ red green blue : Z,
    (0 <= red)%Z ∧ (0 <= green)%Z ∧ (0 <= blue)%Z
    ∧ r (mkRgb 999 0 12 (Num 0.5)) = inject_Z red
    ∧ g (mkRgb 999 0 12 (Num 0.5)) = inject_Z green
    ∧ b (mkRgb 999 0 12 (Num 0.5)) = inject_Z blue.
Proof.
  exact (proj1 (parseColor_channels "rgba(999, 0, 12, 0.5)"
                  (mkRgb 999 0 12 (Num 0.5)) ltac:(cbn; lia) eq_refl)).
Defined.

End ParserProperties.

(** ** Brightness sampling on serialised colours *)

Module BrightnessProperties.
Import Js Content.

Local Open Scope R_scope.

(** X13: Without a usable background the page is taken to be light. *)
Theorem no_background_is_light (styles : ComputedStyles) :
  getReadableBackground styles = None → computePageIsDark styles = false.
Proof.
  intros Hnone. unfold computePageIsDark. rewrite Hnone. cbn [default from_option].
  rewrite ContentFacts.relativeLuminance_white.
  destruct (Rlt_dec 1 0.5); [lra | reflexivity].
Qed.

(** A page whose body and root are both transparent, as on a page that sets
    no background. *)
Lemma no_background_is_light_witness :
  computePageIsDark (mkComputedStyles (Some "rgba(0, 0, 0, 0)") "rgba(0, 0, 0, 0)")
  = false.
Proof.
  exact (no_background_is_light
           (mkComputedStyles (Some "rgba(0, 0, 0, 0)") "rgba(0, 0, 0, 0)") eq_refl).
Defined.

Lemma chosenBackground_opaque_body (red green blue : nat) (rootValue : string) :
  chosenBackground (mkComputedStyles (Some (rgbString red green blue)) rootValue)
  = rgb (Z.of_nat red) (Z.of_nat green) (Z.of_nat blue) (Num 1).
Proof.
  unfold chosenBackground, usableBackground. cbn [bodyBackground].
  by rewrite ParserProperties.parseColor_opaque.
Qed.

Lemma linearize_187 : linearize 187 < 0.5.
Proof.
  rewrite ContentFacts.linearize_high by lra. apply ContentFacts.Rpower_24_lt; lra.
Qed.

Lemma linearize_188 : 0.5 <= linearize 188.
Proof.
  rewrite ContentFacts.linearize_high by lra. apply ContentFacts.le_Rpower_24; lra.
Qed.

(** X14: A grey page [rgb(v, v, v)] is dark exactly up to the level 187. *)
Theorem grey_page_threshold (level : nat) (rootValue : string) :
  computePageIsDark (mkComputedStyles (Some (rgbString level level level)) rootValue)
  = true
  ↔ (level <= 187)%nat.
Proof.
  rewrite ContentFacts.computePageIsDark_chosen, chosenBackground_opaque_body.
  rewrite ContentFacts.relativeLuminance_rgb.
  split.
  - intros Hdark. destruct (Nat.le_gt_cases level 187) as [Hle|Hgt]; [exact Hle|].
    pose proof (ContentFacts.linearize_mono 188 (Z.of_nat level) ltac:(lia)).
    pose proof linearize_188. lra.
  - intros Hle.
    pose proof (ContentFacts.linearize_mono (Z.of_nat level) 187 ltac:(lia)).
    pose proof linearize_187. lra.
Qed.

(** X15: A fully transparent body never decides: whatever its channels, the
    sample is the one the root alone gives. *)
Theorem transparent_body_defers (red green blue : nat) (rootValue : string) :
  computePageIsDark
    (mkComputedStyles (Some (transparentString red green blue)) rootValue)
  = computePageIsDark (mkComputedStyles None rootValue).
Proof.
  unfold computePageIsDark, getReadableBackground. cbn [bodyBackground rootBackground].
  by rewrite ParserProperties.parseColor_transparent.
Qed.

End BrightnessProperties.

(** ** The document edits: frame, round trip and placement *)

Module DocumentProperties.
Import Js Theme Content Dom Resolver.

(** A document the script has not touched: neither managed attribute on the
    root and no element with the managed id. *)
Lemma untouched_count (doc : Document) :
  getElementById STYLE_ID doc = None →
  countIdIn STYLE_ID (rootChildren doc) = 0%nat.
Proof. apply DomFacts.findByIdIn_None. Qed.

Lemma countId_zero_root (i : string) (e : Element) :
  countId i e = 0%nat → String.eqb (elementId e) i = false.
Proof.
  intros Hzero. destruct (String.eqb (elementId e) i) eqn:Hid; [|reflexivity].
  pose proof (DomFacts.countId_root i e Hid). lia.
Qed.

(** Detaching by id undoes appending an element with that id, when no other
    element carries it. *)
Lemma removeFirstIn_app_last (i : string) (forest : list Element) (child : Element) :
  countIdIn i forest = 0%nat → String.eqb (elementId child) i = true →
  removeFirstIn i (forest ++ [child])%list = forest.
Proof.
  intros Hzero Hchild. induction forest as [|kid rest IH].
  - cbn [app removeFirstIn]. by rewrite Hchild.
  - rewrite DomFacts.countIdIn_cons in Hzero.
    assert (countId i kid = 0%nat) as Hkid by lia.
    cbn [app removeFirstIn]. rewrite (countId_zero_root i kid Hkid).
    assert (findById i kid = None) as -> by by apply DomFacts.findById_None.
    rewrite IH by lia. reflexivity.
Qed.

Lemma removeFirstIn_appendToHead (i : string) (child : Element)
    (siblings forest : list Element) :
  appendToHead child siblings = Some forest →
  countIdIn i siblings = 0%nat → String.eqb (elementId child) i = true →
  removeFirstIn i forest = siblings.
Proof.
  intros Happend Hzero Hchild. revert forest Happend.
  induction siblings as [|[t j txt kids] rest IH]; intros forest; [done|].
  rewrite DomFacts.countIdIn_cons in Hzero.
  assert (countId i (El t j txt kids) = 0%nat) as Hkid by lia.
  pose proof (countId_zero_root i _ Hkid) as Hroot. cbn [elementId] in Hroot.
  rewrite DomFacts.countId_unfold, Hroot in Hkid. cbn [Nat.add] in Hkid.
  cbn [appendToHead]. destruct (String.eqb t "head").
  - intros [= <-]. cbn [removeFirstIn elementId]. rewrite Hroot.
    destruct (findById i (El t j txt (kids ++ [child])%list)) as [found|] eqn:Hfind.
    + rewrite DomFacts.removeFirstBelow_unfold.
      by rewrite (removeFirstIn_app_last i kids child Hkid Hchild).
    + apply DomFacts.findById_None in Hfind.
      rewrite DomFacts.countId_unfold, DomFacts.countIdIn_app in Hfind.
      rewrite (DomFacts.countIdIn_cons i child []) in Hfind.
      pose proof (DomFacts.countId_root i child Hchild). lia.
  - destruct (appendToHead child rest) as [forest'|]; [|done].
    intros [= <-]. cbn [removeFirstIn elementId]. rewrite Hroot.
    assert (findById i (El t j txt kids) = None) as ->.
    { apply DomFacts.findById_None. rewrite DomFacts.countId_unfold, Hroot. lia. }
    rewrite (IH ltac:(lia) forest' eq_refl). reflexivity.
Qed.

Lemma ensureStyleElement_children_removed (doc : Document) :
  getElementById STYLE_ID doc = None →
  removeFirstIn STYLE_ID (rootChildren (ensureStyleElement doc)) = rootChildren doc.
Proof.
  intros Hnone. pose proof (untouched_count doc Hnone) as Hzero.
  unfold ensureStyleElement. rewrite Hnone. unfold appendToHeadOrRoot.
  cbn [rootChildren].
  destruct (appendToHead _ (rootChildren doc)) as [forest|] eqn:Hhead.
  - apply (removeFirstIn_appendToHead _ _ _ _ Hhead Hzero). apply String.eqb_refl.
  - apply removeFirstIn_app_last; [exact Hzero | apply String.eqb_refl].
Qed.

(** X16: Round trip: clearing right after applying gives back the untouched
    document, attributes and elements alike. *)
Theorem clearTheme_applyTheme (scheme : ThemeScheme) (invert : bool) (doc : Document) :
  rootAttributes doc !! SCHEME_ATTR = None →
  rootAttributes doc !! INVERT_ATTR = None →
  getElementById STYLE_ID doc = None →
  clearTheme (applyTheme scheme invert doc) = doc.
Proof.
  intros Hscheme Hinvert Hnone. apply ResolverFacts.document_eq.
  - rewrite ResolverFacts.clearTheme_attributes, ResolverFacts.applyTheme_attributes.
    apply map_eq. intros name. rewrite !lookup_delete, !lookup_insert.
    repeat case_decide; by subst.
  - unfold clearTheme, getElementById, removeRootAttribute, removeById.
    cbn [rootChildren rootAttributes]. rewrite ResolverFacts.applyTheme_children.
    pose proof (ResolverFacts.ensureStyleElement_found doc) as Hfound.
    destruct (findByIdIn STYLE_ID (rootChildren (ensureStyleElement doc))); [|done].
    cbn [rootChildren]. by apply ensureStyleElement_children_removed.
Qed.

Lemma clearTheme_applyTheme_witness :
  clearTheme (applyTheme SchemeDark true
                (mkDocument {[ "lang" := "en" ]} [El "head" "" "" []; El "body" "" "" []]))
  = mkDocument {[ "lang" := "en" ]} [El "head" "" "" []; El "body" "" "" []].
Proof.
  exact (clearTheme_applyTheme SchemeDark true
           (mkDocument {[ "lang" := "en" ]} [El "head" "" "" []; El "body" "" "" []])
           eq_refl eq_refl eq_refl).
Defined.

Lemma clearTheme_children_none (doc : Document) :
  getElementById STYLE_ID doc = None →
  rootChildren (clearTheme doc) = rootChildren doc.
Proof.
  unfold clearTheme, getElementById, removeRootAttribute. cbn [rootChildren].
  by intros ->.
Qed.

(** X17: On an untouched document clearing changes nothing. *)
Theorem clearTheme_untouched (doc : Document) :
  rootAttributes doc !! SCHEME_ATTR = None →
  rootAttributes doc !! INVERT_ATTR = None →
  getElementById STYLE_ID doc = None →
  clearTheme doc = doc.
Proof.
  intros Hscheme Hinvert Hnone. apply ResolverFacts.document_eq.
  - rewrite ResolverFacts.clearTheme_attributes.
    rewrite delete_id by (by rewrite lookup_delete_ne by apply ResolverFacts.attrs_distinct).
    by rewrite delete_id.
  - by apply clearTheme_children_none.
Qed.

Lemma clearTheme_untouched_witness :
  clearTheme (mkDocument {[ "lang" := "en" ]} [El "head" "" "" [El "title" "" "Docs" []]])
  = mkDocument {[ "lang" := "en" ]} [El "head" "" "" [El "title" "" "Docs" []]].
Proof.
  exact (clearTheme_untouched
           (mkDocument {[ "lang" := "en" ]} [El "head" "" "" [El "title" "" "Docs" []]])
           eq_refl eq_refl eq_refl).
Defined.

(** X18: Clearing twice is clearing once, as long as at most one element carries
    the managed id. *)
Theorem clearTheme_idempotent (doc : Document) :
  (countIdIn STYLE_ID (rootChildren doc) ≤ 1)%nat →
  clearTheme (clearTheme doc) = clearTheme doc.
Proof.
  intros Hone. apply ResolverFacts.document_eq.
  - rewrite !ResolverFacts.clearTheme_attributes.
    apply map_eq. intros name. rewrite !lookup_delete.
    by repeat case_decide.
  - apply clearTheme_children_none, DomFacts.findByIdIn_None.
    pose proof (ResolverFacts.clearTheme_count doc). lia.
Qed.

Lemma clearTheme_idempotent_witness :
  let doc := applyTheme SchemeLight true (mkDocument ∅ [El "body" "" "" []]) in
  clearTheme (clearTheme doc) = clearTheme doc.
Proof.
  cbv zeta. apply clearTheme_idempotent.
  rewrite ResolverFacts.applyTheme_count. cbn. lia.
Defined.

(** X19: A resolution pass, whichever way it goes, leaves every other attribute
    of the root as it was. *)
Theorem pass_keeps_other_attributes (settings : ThemeSettings) (env : Env)
    (st : State) (name : string) :
  name ≠ SCHEME_ATTR → name ≠ INVERT_ATTR →
  rootAttributes (document (applyThemeFromSettings settings env st)) !! name
  = rootAttributes (document st) !! name.
Proof.
  intros Hscheme Hinvert.
  destruct (String.eqb_spec (pageHostname env) "") as [Hempty|Hhost].
  - rewrite ResolverFacts.applyThemeFromSettings_inactive by (by left).
    cbn [document]. rewrite ResolverFacts.clearTheme_attributes.
    by rewrite !lookup_delete_ne.
  - destruct (siteOverrides settings !! pageHostname env) as [mode|] eqn:Hmode.
    + rewrite (ResolverFacts.applyThemeFromSettings_active _ _ _ mode) by done.
      cbn [document]. rewrite ResolverFacts.applyTheme_attributes.
      by rewrite !lookup_insert_ne.
    + destruct (inheritedName (pageHostname env)) eqn:Hname.
      * rewrite ResolverFacts.applyThemeFromSettings_inherited by done.
        cbn [document]. rewrite ResolverFacts.applyThemeText_attributes.
        by rewrite !lookup_insert_ne.
      * rewrite ResolverFacts.applyThemeFromSettings_inactive by (by right).
        cbn [document]. rewrite ResolverFacts.clearTheme_attributes.
        by rewrite !lookup_delete_ne.
Qed.

Lemma pass_keeps_other_attributes_witness :
  rootAttributes
    (document
       (applyThemeFromSettings (mkThemeSettings System {[ "example.com" := Dark ]})
          (mkEnv "example.com" "example.com" true
             (mkComputedStyles None "rgb(0, 0, 0)"))
          (mkState (Some true) (mkDocument {[ "lang" := "en" ]} []))))
  !! "lang"
  = Some "en".
Proof.
  exact (pass_keeps_other_attributes
           (mkThemeSettings System {[ "example.com" := Dark ]})
           (mkEnv "example.com" "example.com" true (mkComputedStyles None "rgb(0, 0, 0)"))
           (mkState (Some true) (mkDocument {[ "lang" := "en" ]} []))
           "lang" ltac:(discriminate) ltac:(discriminate)).
Defined.

(** X20: A pass on a host that has an override leaves the page themed: the
    scheme attribute carries the resolved scheme, the invert attribute says
    whether it disagrees with the page's brightness, the stylesheet is in
    the document (once, if it was there at most once) and the sample is
    kept. *)
Theorem active_pass_applies (settings : ThemeSettings) (env : Env) (st : State)
    (mode : ThemeMode) :
  pageHostname env ≠ "" →
  siteOverrides settings !! pageHostname env = Some mode →
  let st' := applyThemeFromSettings settings env st in
  let scheme := resolveScheme (prefersDarkMatches env) mode in
  let pageIsDark :=
    default (computePageIsDark (computedStyles env)) (baselineIsDark st) in
  rootAttributes (document st') !! SCHEME_ATTR = Some (schemeToString scheme)
  ∧ rootAttributes (document st') !! INVERT_ATTR
    = Some (if shouldInvert scheme pageIsDark then "true" else "false")
  ∧ getElementById STYLE_ID (document st') ≠ None
  ∧ ((countIdIn STYLE_ID (rootChildren (document st)) ≤ 1)%nat →
     countIdIn STYLE_ID (rootChildren (document st')) = 1%nat)
  ∧ baselineIsDark st' = baselineIsDark st.
Proof.
  intros Hhost Hmode. cbv zeta.
  rewrite (ResolverFacts.applyThemeFromSettings_active _ _ _ mode) by done.
  cbn [document baselineIsDark]. rewrite ResolverFacts.applyTheme_attributes.
  repeat split.
  - rewrite lookup_insert_ne by (apply not_eq_sym, ResolverFacts.attrs_distinct).
    apply lookup_insert_eq.
  - apply lookup_insert_eq.
  - unfold getElementById. rewrite ResolverFacts.applyTheme_children.
    apply ResolverFacts.ensureStyleElement_found.
  - intros Hone. rewrite ResolverFacts.applyTheme_count. lia.
Qed.

Lemma active_pass_applies_witness :
  rootAttributes
    (document
       (applyThemeFromSettings (mkThemeSettings Light {[ "example.com" := System ]})
          (mkEnv "example.com" "example.com:8080" true
             (mkComputedStyles None "rgb(0, 0, 0)"))
          (mkState (Some true) (mkDocument ∅ []))))
  !! SCHEME_ATTR
  = Some "dark".
Proof.
  exact (proj1 (active_pass_applies
                  (mkThemeSettings Light {[ "example.com" := System ]})
                  (mkEnv "example.com" "example.com:8080" true
                     (mkComputedStyles None "rgb(0, 0, 0)"))
                  (mkState (Some true) (mkDocument ∅ []))
                  System ltac:(discriminate) eq_refl)).
Defined.

Lemma appendToHead_head (child : Element) (siblings : list Element)
    (t j txt : string) (kids : list Element) :
  List.find (fun e => String.eqb (elementTag e) "head") siblings
  = Some (El t j txt kids) →
  ∃ forest,
    appendToHead child siblings = Some forest
    ∧ List.find (fun e => String.eqb (elementTag e) "head") forest
      = Some (El t j txt (kids ++ [child])%list).
Proof.
  induction siblings as [|[t' j' txt' kids'] rest IH]; [done|].
  cbn [List.find appendToHead elementTag].
  destruct (String.eqb t' "head") eqn:Htag.
  - intros [= -> -> -> ->]. eexists. split; [reflexivity|].
    cbn [List.find elementTag]. by rewrite Htag.
  - intros Hrest. destruct (IH Hrest) as (forest & -> & Hfind).
    eexists. split; [reflexivity|]. cbn [List.find elementTag]. by rewrite Htag.
Qed.

(** X21: Where the stylesheet goes: when the document has a head and no element
    with the managed id, applying a theme makes the style element the last
    child of that head. *)
Theorem style_goes_last_in_head (scheme : ThemeScheme) (invert : bool)
    (doc : Document) (t j txt : string) (kids : list Element) :
  getElementById STYLE_ID doc = None →
  documentHead doc = Some (El t j txt kids) →
  documentHead (applyTheme scheme invert doc)
  = Some (El t j txt (kids ++ [El "style" STYLE_ID styleText []])%list).
Proof.
  intros Hnone Hhead. unfold documentHead in *.
  rewrite ResolverFacts.applyTheme_children.
  unfold ensureStyleElement. rewrite Hnone. unfold appendToHeadOrRoot.
  cbn [rootChildren].
  destruct (appendToHead_head (El "style" STYLE_ID styleText []) _ _ _ _ _ Hhead)
    as (forest & -> & Hfind).
  exact Hfind.
Qed.

Lemma style_goes_last_in_head_witness :
  documentHead
    (applyTheme SchemeDark false
       (mkDocument ∅ [El "head" "" "" [El "title" "" "Docs" []]; El "body" "" "" []]))
  = Some (El "head" "" ""
            [El "title" "" "Docs" []; El "style" STYLE_ID styleText []]).
Proof.
  exact (style_goes_last_in_head SchemeDark false
           (mkDocument ∅ [El "head" "" "" [El "title" "" "Docs" []]; El "body" "" "" []])
           "head" "" "" [El "title" "" "Docs" []] eq_refl eq_refl).
Defined.

End DocumentProperties.

(** ** From the popup to the page *)

Module PipelineProperties.
Import Js Theme Popup Content Dom Resolver.

(** X22: A pass reads the settings only at the override of the page's own
    hostname: two settings values that agree there give the same result,
    whatever their default modes and their other overrides. *)
Theorem pass_reads_own_override (settings settings' : ThemeSettings)
    (env : Env) (st : State) :
  siteOverrides settings !! pageHostname env
  = siteOverrides settings' !! pageHostname env →
  applyThemeFromSettings settings env st = applyThemeFromSettings settings' env st.
Proof.
  intros Hsame. unfold applyThemeFromSettings, readOverride. cbv zeta.
  by rewrite Hsame.
Qed.

Lemma pass_reads_own_override_witness :
  let env := mkEnv "example.com" "example.com" false
               (mkComputedStyles None "rgb(0, 0, 0)") in
  let st := mkState (Some true) (mkDocument ∅ []) in
  applyThemeFromSettings (mkThemeSettings Light {[ "other.org" := Dark ]}) env st
  = applyThemeFromSettings (mkThemeSettings Dark ∅) env st.
Proof.
  cbv zeta.
  exact (pass_reads_own_override
           (mkThemeSettings Light {[ "other.org" := Dark ]}) (mkThemeSettings Dark ∅)
           (mkEnv "example.com" "example.com" false (mkComputedStyles None "rgb(0, 0, 0)"))
           (mkState (Some true) (mkDocument ∅ [])) eq_refl).
Defined.

Lemma pass_keeps_sample (settings : ThemeSettings) (env : Env) (st : State) :
  baselineIsDark (applyThemeFromSettings settings env st) = baselineIsDark st.
Proof.
  unfold applyThemeFromSettings. cbv zeta.
  destruct (String.eqb _ ""); [reflexivity|].
  by destruct (readOverride _ _).
Qed.

Lemma applyFromStorage_keeps_sample (storage : gmap string JsValue)
    (env : Env) (st : State) :
  baselineIsDark (applyFromStorage storage env st) = baselineIsDark st.
Proof.
  destruct (ResolverFacts.applyFromStorage_runs_pass storage env st)
    as (settings & _ & ->).
  apply pass_keeps_sample.
Qed.

Lemma pass_ignores_styles_once_sampled (settings : ThemeSettings)
    (hostname host : string) (prefersDark : bool) (styles styles' : ComputedStyles)
    (st : State) :
  baselineIsDark st ≠ None →
  applyThemeFromSettings settings (mkEnv hostname host prefersDark styles) st
  = applyThemeFromSettings settings (mkEnv hostname host prefersDark styles') st.
Proof.
  intros Hsampled. unfold applyThemeFromSettings. cbv zeta.
  change (pageHostname (mkEnv hostname host prefersDark styles'))
    with (pageHostname (mkEnv hostname host prefersDark styles)).
  cbn [prefersDarkMatches computedStyles].
  by destruct (baselineIsDark st).
Qed.

(** X23: The brightness is sampled once: [start] leaves a sample in place (the
    one already there, if any); the handlers that follow keep it; and their
    result does not depend on what the page's backgrounds have become. *)
Theorem brightness_sampled_once (storage storage' : gmap string JsValue)
    (env : Env) (st : State) (prefersDark' : bool) (styles' : ComputedStyles)
    (newValue : JsValue) :
  let st1 := start storage env st in
  let later := mkEnv (locationHostname env) (locationHost env) prefersDark' styles' in
  let same := mkEnv (locationHostname env) (locationHost env) prefersDark'
                (computedStyles env) in
  baselineIsDark st1
  = Some (default (computePageIsDark (computedStyles env)) (baselineIsDark st))
  ∧ baselineIsDark (onSystemSchemeChange storage' later st1) = baselineIsDark st1
  ∧ baselineIsDark (onStorageChanged (Some newValue) "local" later st1)
    = baselineIsDark st1
  ∧ onSystemSchemeChange storage' later st1 = onSystemSchemeChange storage' same st1
  ∧ onStorageChanged (Some newValue) "local" later st1
    = onStorageChanged (Some newValue) "local" same st1.
Proof.
  cbv zeta.
  assert (baselineIsDark (start storage env st)
          = Some (default (computePageIsDark (computedStyles env)) (baselineIsDark st)))
    as Hsample.
  { unfold start. rewrite applyFromStorage_keeps_sample.
    by destruct (baselineIsDark st) eqn:Hbefore. }
  assert (baselineIsDark (start storage env st) ≠ None) as Hsampled
    by (by rewrite Hsample).
  split; [exact Hsample|]. unfold onSystemSchemeChange.
  split; [apply applyFromStorage_keeps_sample|].
  destruct (ResolverFacts.onStorageChanged_runs_pass newValue
              (mkEnv (locationHostname env) (locationHost env) prefersDark' styles')
              (start storage env st)) as (next & Hnext & Hlater).
  destruct (ResolverFacts.onStorageChanged_runs_pass newValue
              (mkEnv (locationHostname env) (locationHost env) prefersDark'
                 (computedStyles env))
              (start storage env st)) as (next' & Hnext' & Hsame).
  assert (next' = next) as -> by congruence.
  split; [rewrite Hlater; apply pass_keeps_sample|].
  split.
  - destruct (ResolverFacts.applyFromStorage_runs_pass storage'
                (mkEnv (locationHostname env) (locationHost env) prefersDark' styles')
                (start storage env st)) as (loaded & Hloaded & ->).
    destruct (ResolverFacts.applyFromStorage_runs_pass storage'
                (mkEnv (locationHostname env) (locationHost env) prefersDark'
                   (computedStyles env))
                (start storage env st)) as (loaded' & Hloaded' & ->).
    assert (loaded' = loaded) as -> by congruence.
    by apply pass_ignores_styles_once_sampled.
  - rewrite Hlater, Hsame. by apply pass_ignores_styles_once_sampled.
Qed.

(** X24: The OS preference matters for the system mode only: on a host whose
    override is light or dark, a pass gives the same result whether or not
    the OS prefers dark. *)
Theorem fixed_mode_ignores_os (settings : ThemeSettings)
    (hostname host : string) (styles : ComputedStyles) (st : State) :
  siteOverrides settings !! pageHostname (mkEnv hostname host true styles)
  ≠ Some System →
  applyThemeFromSettings settings (mkEnv hostname host true styles) st
  = applyThemeFromSettings settings (mkEnv hostname host false styles) st.
Proof.
  unfold applyThemeFromSettings. cbv zeta.
  change (pageHostname (mkEnv hostname host false styles))
    with (pageHostname (mkEnv hostname host true styles)).
  generalize (pageHostname (mkEnv hostname host true styles)) as page.
  intros page Hfixed. cbn [prefersDarkMatches computedStyles].
  destruct (String.eqb page ""); [reflexivity|]. unfold readOverride.
  destruct (siteOverrides settings !! page) as [[| |]|]; try done.
  by destruct (inheritedName page).
Qed.

Lemma fixed_mode_ignores_os_witness :
  let settings := mkThemeSettings System {[ "example.com" := Light ]} in
  let styles := mkComputedStyles None "rgb(0, 0, 0)" in
  let st := mkState (Some true) (mkDocument ∅ []) in
  applyThemeFromSettings settings (mkEnv "example.com" "example.com" true styles) st
  = applyThemeFromSettings settings (mkEnv "example.com" "example.com" false styles) st.
Proof.
  cbv zeta. apply fixed_mode_ignores_os.
  intros Hsystem. vm_compute in Hsystem. discriminate Hsystem.
Defined.

(** Under the system mode, a change of the OS preference flips both the
    scheme and the decision to invert. *)
Remark system_mode_follows_os (prefersDark pageIsDark : bool) :
  resolveScheme (negb prefersDark) System ≠ resolveScheme prefersDark System
  ∧ shouldInvert (resolveScheme (negb prefersDark) System) pageIsDark
    = negb (shouldInvert (resolveScheme prefersDark System) pageIsDark).
Proof. by destruct prefersDark, pageIsDark. Qed.

(** The pass a written value leads to: the one on the settings written,
    less an override under [__proto__]. *)
Lemma onStorageChanged_written (written : ThemeSettings) (env : Env) (st : State) :
  onStorageChanged (Some (settingsToJs written)) "local" env st
  = applyThemeFromSettings
      (mkThemeSettings (defaultMode written)
         (delete "__proto__" (siteOverrides written)))
      env st.
Proof.
  unfold onStorageChanged. cbn [String.eqb Ascii.eqb Bool.eqb negb].
  by rewrite ThemeFacts.settingsOfJs_normalizeSettings_delete.
Qed.

Lemma pass_congruence (settings settings' : ThemeSettings) (env : Env) (st : State) :
  siteOverrides settings !! pageHostname env
  = siteOverrides settings' !! pageHostname env →
  applyThemeFromSettings settings env st = applyThemeFromSettings settings' env st.
Proof.
  intros Hsame. unfold applyThemeFromSettings, readOverride. cbv zeta.
  by rewrite Hsame.
Qed.

(** X25: Picking a mode in the popup reaches the page, on a host other than
    [__proto__] and from settings without an override under that key: when
    the content script of a page on the active host receives the change,
    the root carries the scheme that mode resolves to and the stylesheet is
    in the document; a page on any other host gets what the previous
    settings gave it. *)
Theorem setMode_reaches_page (mode : ThemeMode) (pst : PopupState)
    (storage : gmap string JsValue) (host : string) (env : Env) (st : State) :
  activeHost pst = Some host → host ≠ "" → host ≠ "__proto__" →
  siteOverrides (settings pst) !! "__proto__" = None →
  let change := (setMode mode pst storage).2 !! STORAGE_KEY in
  (pageHostname env = host →
   let st' := onStorageChanged change "local" env st in
   rootAttributes (document st') !! SCHEME_ATTR
   = Some (schemeToString (resolveScheme (prefersDarkMatches env) mode))
   ∧ getElementById STYLE_ID (document st') ≠ None)
  ∧ (pageHostname env ≠ host →
     onStorageChanged change "local" env st
     = applyThemeFromSettings (settings pst) env st).
Proof.
  intros Hhost Hne Hproto Hfree. cbv zeta.
  rewrite PopupProperties.setMode_stored, onStorageChanged_written.
  rewrite (PopupFacts.setMode_active mode pst storage host Hhost Hne).
  unfold updateSettings. cbn [fst settings defaultMode siteOverrides].
  rewrite delete_insert_ne, (delete_id _ _ Hfree) by done.
  split.
  - intros Hpage.
    rewrite (ResolverFacts.applyThemeFromSettings_active _ _ _ mode);
      [|by rewrite Hpage|rewrite Hpage; apply lookup_insert_eq].
    cbn [document]. rewrite ResolverFacts.applyTheme_attributes. split.
    + rewrite lookup_insert_ne by (apply not_eq_sym, ResolverFacts.attrs_distinct).
      apply lookup_insert_eq.
    + unfold getElementById. rewrite ResolverFacts.applyTheme_children.
      apply ResolverFacts.ensureStyleElement_found.
  - intros Hother. apply pass_congruence.
    cbn [siteOverrides]. by rewrite lookup_insert_ne.
Qed.

Lemma setMode_reaches_page_witness :
  let pst := mkPopupState (mkThemeSettings System ∅) (Some "example.com") true in
  let env := mkEnv "example.com" "example.com" false
               (mkComputedStyles None "rgb(255, 255, 255)") in
  let st := mkState (Some false) (mkDocument ∅ []) in
  rootAttributes
    (document (onStorageChanged ((setMode Dark pst ∅).2 !! STORAGE_KEY) "local" env st))
  !! SCHEME_ATTR
  = Some "dark".
Proof.
  cbv zeta.
  exact (proj1 (proj1 (setMode_reaches_page Dark
                         (mkPopupState (mkThemeSettings System ∅) (Some "example.com") true)
                         ∅ "example.com"
                         (mkEnv "example.com" "example.com" false
                            (mkComputedStyles None "rgb(255, 255, 255)"))
                         (mkState (Some false) (mkDocument ∅ []))
                         eq_refl ltac:(discriminate) ltac:(discriminate) eq_refl)
                  eq_refl)).
Defined.

(** X26: Switching a site off in the popup reaches the page too, on a host
    that is not a property name of [Object.prototype]: the content script
    of a page on that host removes both attributes when it receives the
    change, and the stylesheet if there was at most one. *)
Theorem setSiteOverride_off_reaches_page (pst : PopupState)
    (storage : gmap string JsValue) (host : string) (env : Env) (st : State) :
  activeHost pst = Some host → host ≠ "" → inheritedName host = false →
  pageHostname env = host →
  let change := (setSiteOverride false pst storage).2 !! STORAGE_KEY in
  let st' := onStorageChanged change "local" env st in
  rootAttributes (document st') !! SCHEME_ATTR = None
  ∧ rootAttributes (document st') !! INVERT_ATTR = None
  ∧ ((countIdIn STYLE_ID (rootChildren (document st)) ≤ 1)%nat →
     getElementById STYLE_ID (document st') = None).
Proof.
  intros Hhost Hne Hname Hpage. cbv zeta.
  rewrite (PopupProperties.setSiteOverride_active false pst storage host Hhost Hne).
  unfold updateSettings. cbn [snd]. rewrite lookup_insert_eq.
  rewrite onStorageChanged_written.
  rewrite ResolverFacts.applyThemeFromSettings_inactive.
  2:{ right. cbn [siteOverrides]. rewrite Hpage. split; [|exact Hname].
      rewrite delete_delete. apply lookup_delete_eq. }
  cbn [document]. rewrite ResolverFacts.clearTheme_attributes. repeat split.
  - rewrite lookup_delete_ne by (apply not_eq_sym, ResolverFacts.attrs_distinct).
    apply lookup_delete_eq.
  - apply lookup_delete_eq.
  - intros Hone. apply DomFacts.findByIdIn_None.
    pose proof (ResolverFacts.clearTheme_count (document st)). lia.
Qed.

Lemma setSiteOverride_off_reaches_page_witness :
  let pst := mkPopupState (mkThemeSettings System {[ "example.com" := Dark ]})
               (Some "example.com") true in
  let env := mkEnv "example.com" "example.com" false
               (mkComputedStyles None "rgb(255, 255, 255)") in
  let st := mkState (Some false)
              (applyTheme SchemeDark true (mkDocument ∅ [El "head" "" "" []])) in
  rootAttributes
    (document
       (onStorageChanged ((setSiteOverride false pst ∅).2 !! STORAGE_KEY) "local" env st))
  !! INVERT_ATTR
  = None.
Proof.
  cbv zeta.
  exact (proj1 (proj2 (setSiteOverride_off_reaches_page
                         (mkPopupState (mkThemeSettings System {[ "example.com" := Dark ]})
                            (Some "example.com") true)
                         ∅ "example.com"
                         (mkEnv "example.com" "example.com" false
                            (mkComputedStyles None "rgb(255, 255, 255)"))
                         (mkState (Some false)
                            (applyTheme SchemeDark true (mkDocument ∅ [El "head" "" "" []])))
                         eq_refl ltac:(discriminate) eq_refl eq_refl))).
Defined.

End PipelineProperties.
